(** * A shallow embedding of streamlit_supabase_storage_browser/__init__.py

    The Python module is modelled as follows.
    - Python values seen by the code (rows returned by the storage query,
      the event returned by the UI bundle) are [pyval].
    - A raised exception is [Err e]; the module's stateful code runs in a
      state-and-exception monad [M] whose state holds the UI output log
      and a heap of dict objects, so that the aliasing between the global
      [PREVIEW_HANDLERS] dict and its per-call copy is explicit.
    - Library code outside the repository (requests.get, the filetype
      sniffers, urljoin, the embedded UI bundle, the preview handlers'
      rendering) is a field of an environment record [env]; every theorem
      holds for every environment. *)

From stdpp Require Import base gmap strings list.
From Stdlib Require Import Ascii String ZArith QArith.

Open Scope nat_scope.
Open Scope string_scope.
Set Warnings "-register-all".

(* ------------------------------------------------------------------ *)
(** ** Python values, exceptions, results *)

Inductive pyval :=
| PNone
| PBool (b : bool)
| PInt (z : Z)
| PStr (s : string)
| PList (l : list pyval)
| PDict (kvs : list (string * pyval)).

Inductive exn :=
| KeyError (k : string)
| TypeError
| AttributeError
| ValueError
| MissingSchema          (* requests.get(None) *)
| ConnectionError
| APIError               (* postgrest: query rejected / not a single row *)
| OtherExn (msg : string).

Inductive res (A : Type) :=
| Ok (a : A)
| Err (e : exn).
Arguments Ok {A} a.
Arguments Err {A} e.

Definition res_bind {A B} (r : res A) (k : A -> res B) : res B :=
  match r with Ok a => k a | Err e => Err e end.

Notation "'let?' x := r 'in' k" := (res_bind r (fun x => k))
  (at level 200, x name, r at level 100, k at level 200).
Notation "'let?' ' p := r 'in' k" := (res_bind r (fun x => match x with p => k end))
  (at level 200, p pattern, r at level 100, k at level 200).

(** [d[k]] on a Python value: dicts raise [KeyError], other values
    raise [TypeError]. *)
Fixpoint assoc_get {V} (kvs : list (string * V)) (k : string) : option V :=
  match kvs with
  | [] => None
  | (k', v) :: kvs' => if String.eqb k' k then Some v else assoc_get kvs' k
  end.

Definition getitem (v : pyval) (k : string) : res pyval :=
  match v with
  | PDict kvs => match assoc_get kvs k with Some x => Ok x | None => Err (KeyError k) end
  | _ => Err TypeError
  end.

(** [d.get(k)] on a dict. *)
Definition dict_get_opt (kvs : list (string * pyval)) (k : string) : pyval :=
  match assoc_get kvs k with Some x => x | None => PNone end.

(* ------------------------------------------------------------------ *)
(** ** Text helpers on strings as lists of characters *)

Definition chars (s : string) : list ascii := list_ascii_of_string s.

Definition str_endswith (s suffix : string) : bool :=
  let n := String.length s in
  let m := String.length suffix in
  Nat.leb m n && String.eqb (substring (n - m) m s) suffix.

(** Python's [str] for the values that reach an f-string or a postgrest
    filter value. Containers are rendered without escaping nested
    strings. *)
Fixpoint digits_of_pos (fuel : nat) (n : N) (acc : string) : string :=
  match fuel with
  | O => acc
  | S fuel' =>
      let d := N.modulo n 10 in
      let acc' := String (ascii_of_N (48 + d)) acc in
      if N.ltb n 10 then acc' else digits_of_pos fuel' (N.div n 10) acc'
  end.

Definition z_to_string (z : Z) : string :=
  match z with
  | Z0 => "0"
  | Zpos p => digits_of_pos 64 (Npos p) ""
  | Zneg p => String "-" (digits_of_pos 64 (Npos p) "")
  end.

Fixpoint py_str (v : pyval) : string :=
  match v with
  | PNone => "None"
  | PBool true => "True"
  | PBool false => "False"
  | PInt z => z_to_string z
  | PStr s => s
  | PList l =>
      "[" ++ concat ", " (map py_str l) ++ "]"
  | PDict kvs =>
      "{" ++ concat ", " (map (fun kv => "'" ++ fst kv ++ "': " ++ py_str (snd kv)) kvs) ++ "}"
  end.

(* ------------------------------------------------------------------ *)
(** ** Preview handlers and the handler registry

    A handler is named by the function the source registers; per-call
    overrides supplied by the caller are [H_custom n]. *)

Inductive handler :=
| H_json          (* _do_json_preview *)
| H_pdf           (* _do_pdf_preview *)
| H_csv           (* _do_csv_preview *)
| H_tsv           (* _do_tsv_preview *)
| H_plain         (* _do_plain_preview *)
| H_markdown      (* _do_markdown_preview *)
| H_code          (* _do_code_preview *)
| H_html          (* _do_html_preview *)
| H_dbn           (* _do_dbn_preview *)
| H_custom (n : string).

#[global] Instance handler_eq_dec : EqDecision handler.
Proof. solve_decision. Defined.

(** A Python dict from extension to handler: insertion ordered, one
    entry per key. *)
Definition dict := list (string * handler).

Definition dict_lookup (d : dict) (k : string) : option handler := assoc_get d k.

Definition dict_mem (d : dict) (k : string) : bool :=
  match dict_lookup d k with Some _ => true | None => false end.

(** [d[k] = v]: an existing key keeps its position, a new key is
    appended. *)
Definition dict_setitem (d : dict) (k : string) (v : handler) : dict :=
  if dict_mem d k
  then map (fun kv => if String.eqb (fst kv) k then (k, v) else kv) d
  else (d ++ [(k, v)])%list.

(** [d.update(other)]: the entries of [other] in order. *)
Definition dict_update (d other : dict) : dict :=
  fold_left (fun acc kv => dict_setitem acc (fst kv) (snd kv)) other d.

(** The declarative list the comprehension iterates over (the
    commented-out molecule entries are not part of it). *)
Definition PREVIEW_HANDLERS_decls : list (list string * handler) :=
  [ ([".json"], H_json);
    ([".pdf"], H_pdf);
    ([".csv"], H_csv);
    ([".tsv"], H_tsv);
    ([".log"; ".txt"; ".md"; ".upf"; ".UPF"; ".orb"], H_plain);
    ([".md"], H_markdown);
    ([".py"; ".sh"], H_code);
    ([".html"; ".htm"], H_html);
    ([".dbn"], H_dbn) ].

(** [{extention: handler for extentions, handler in decls
      for extention in extentions}] *)
Definition dict_comprehension (decls : list (list string * handler)) : dict :=
  fold_left (fun acc eh =>
    fold_left (fun acc' ext => dict_setitem acc' ext (snd eh)) (fst eh) acc)
    decls [].

Definition PREVIEW_HANDLERS : dict := dict_comprehension PREVIEW_HANDLERS_decls.

(* ------------------------------------------------------------------ *)
(** ** os.path.splitext (posixpath) *)

(** [p.rfind(c)], -1 when absent. *)
Fixpoint rfind_from (c : ascii) (l : list ascii) (i : nat) (acc : Z) : Z :=
  match l with
  | [] => acc
  | x :: l' => rfind_from c l' (S i) (if ascii_dec x c then Z.of_nat i else acc)
  end.

Definition rfind (c : ascii) (l : list ascii) : Z := rfind_from c l 0 (-1)%Z.

(** genericpath._splitext with sep = "/", altsep = None, extsep = ".":
    the extension starts at the last dot after the last separator,
    unless everything between the separator and that dot is dots. *)
Definition splitext_ext (p : string) : string :=
  let l := chars p in
  let sepIndex := rfind "/"%char l in
  let dotIndex := rfind "."%char l in
  if (sepIndex <? dotIndex)%Z
     && existsb (fun i => negb (Ascii.eqb (nth i l " "%char) "."%char))
          (seq (Z.to_nat (sepIndex + 1)) (Z.to_nat (dotIndex - sepIndex - 1)))
  then string_of_list_ascii (skipn (Z.to_nat dotIndex) l)
  else "".

(* ------------------------------------------------------------------ *)
(** ** Pattern matching: one matcher for fnmatch and SQL LIKE

    Both kinds of pattern compile to a token list: [GStar] matches any
    run of characters (including "/"), [GChar p] one character
    satisfying [p]; the whole name must be matched. *)

Inductive gtok :=
| GStar
| GChar (p : ascii -> bool).

Fixpoint gmatch (ts : list gtok) (s : list ascii) : bool :=
  match ts with
  | [] => match s with [] => true | _ :: _ => false end
  | GStar :: ts' =>
      (fix go (s : list ascii) : bool :=
         gmatch ts' s || match s with [] => false | _ :: s' => go s' end) s
  | GChar p :: ts' =>
      match s with [] => false | c :: s' => p c && gmatch ts' s' end
  end.

(** *** fnmatch.fnmatch (POSIX: os.path.normcase is the identity)

    CPython's fnmatch.translate: "*" is ".*", "?" is ".", an unclosed
    "[" is a literal, a bracket expression becomes a regex class (a
    leading "!" negates, a "]" right after "[" or "[!" is literal,
    hyphens split the class into chunks joined by ranges, and a chunk
    boundary whose range is empty removes both of its end points); every
    other character is literal. The regex is compiled with DOTALL and
    must match the whole name. *)

(** [s.find(c, k)] as an index into [s]. *)
Fixpoint find_from (c : ascii) (l : list ascii) (i : nat) : option nat :=
  match l with
  | [] => None
  | x :: l' => if Ascii.eqb x c then Some i else find_from c l' (S i)
  end.

Definition find_at (c : ascii) (l : list ascii) (k : nat) : option nat :=
  match find_from c (skipn k l) 0 with Some i => Some (k + i) | None => None end.

Definition slice (l : list ascii) (i j : nat) : list ascii := firstn (j - i) (skipn i l).

(** The chunk loop of fnmatch.translate over the class text [stuff]. *)
Fixpoint class_chunks_loop (fuel : nat) (stuff : list ascii) (i k : nat)
    (acc : list (list ascii)) : list (list ascii) * nat :=
  match fuel with
  | O => (acc, i)
  | S fuel' =>
      match find_at "-"%char stuff k with
      | None => (acc, i)
      | Some k' => class_chunks_loop fuel' stuff (S k') (k' + 3) (acc ++ [slice stuff i k'])%list
      end
  end.

Definition last_char (l : list ascii) : ascii := List.last l " "%char.
Definition first_char (l : list ascii) : ascii := hd " "%char l.

(** [for k in range(len(chunks)-1, 0, -1)]: remove empty ranges. *)
Fixpoint remove_empty_ranges (n : nat) (chunks : list (list ascii)) : list (list ascii) :=
  match n with
  | O => chunks
  | S k =>
      (* k ranges over len-1 .. 1; here k+1 is the index being examined *)
      let chunks' :=
        match nth_error chunks k, nth_error chunks (S k) with
        | Some a, Some b =>
            if Nat.ltb (nat_of_ascii (first_char b)) (nat_of_ascii (last_char a))
            then (firstn k chunks ++ [(removelast a ++ tl b)%list] ++ skipn (S (S k)) chunks)%list
            else chunks
        | _, _ => chunks
        end in
      remove_empty_ranges k chunks'
  end.

Definition class_chunks (stuff : list ascii) : list (list ascii) :=
  if negb (existsb (Ascii.eqb "-"%char) stuff) then [stuff]
  else
    let k0 := if Ascii.eqb (first_char stuff) "!"%char then 2 else 1 in
    let '(chunks, i) := class_chunks_loop (List.length stuff) stuff 0 k0 [] in
    let chunk := skipn i stuff in
    let chunks :=
      match chunk with
      | [] => (removelast chunks ++ [(List.last chunks [] ++ ["-"%char])%list])%list
      | _ => (chunks ++ [chunk])%list
      end in
    remove_empty_ranges (List.length chunks - 1) chunks.

(** The character set of a class with the given chunks: the chunks'
    characters, and each range from the last character of a chunk to the
    first of the next one. *)
Fixpoint in_chunks (c : ascii) (chunks : list (list ascii)) : bool :=
  match chunks with
  | [] => false
  | a :: rest =>
      existsb (Ascii.eqb c) a
      || match rest with
         | b :: _ =>
             match a, b with
             | _ :: _, _ :: _ =>
                 Nat.leb (nat_of_ascii (last_char a)) (nat_of_ascii c)
                 && Nat.leb (nat_of_ascii c) (nat_of_ascii (first_char b))
             | _, _ => false
             end
         | [] => false
         end
      || in_chunks c rest
  end.

(** ['-'.join(chunks)] *)
Fixpoint join_hyphen (chunks : list (list ascii)) : list ascii :=
  match chunks with
  | [] => []
  | [a] => a
  | a :: rest => (a ++ "-"%char :: join_hyphen rest)%list
  end.

Definition class_tok (stuff : list ascii) : gtok :=
  let chunks := class_chunks stuff in
  let joined := join_hyphen chunks in
  match joined with
  | [] => GChar (fun _ => false)                          (* "(?!)" *)
  | ["!"%char] => GChar (fun _ => true)                   (* "." *)
  | c0 :: _ =>
      if Ascii.eqb c0 "!"%char then
        let chunks' := match chunks with a :: r => tl a :: r | [] => [] end in
        GChar (fun c => negb (in_chunks c chunks'))
      else GChar (fun c => in_chunks c chunks)
  end.

(** The end of a bracket expression starting after "[": [Some j] with
    [rest[j] = "]"]. *)
Definition class_end (rest : list ascii) : option nat :=
  let j0 := if Ascii.eqb (first_char rest) "!"%char then 1 else 0 in
  let j1 := if Nat.ltb j0 (List.length rest) && Ascii.eqb (nth j0 rest " "%char) "]"%char
            then S j0 else j0 in
  find_at "]"%char rest j1.

Fixpoint fn_translate (fuel : nat) (pat : list ascii) : list gtok :=
  match fuel with
  | O => []
  | S fuel' =>
      match pat with
      | [] => []
      | c :: rest =>
          if Ascii.eqb c "*"%char then GStar :: fn_translate fuel' rest
          else if Ascii.eqb c "?"%char then GChar (fun _ => true) :: fn_translate fuel' rest
          else if Ascii.eqb c "["%char then
            match class_end rest with
            | None => GChar (Ascii.eqb "["%char) :: fn_translate fuel' rest
            | Some j => class_tok (firstn j rest) :: fn_translate fuel' (skipn (S j) rest)
            end
          else GChar (Ascii.eqb c) :: fn_translate fuel' rest
      end
  end.

Definition fnmatch (name pat : string) : bool :=
  gmatch (fn_translate (String.length pat) (chars pat)) (chars name).

(** *** SQL LIKE as PostgREST sends it to PostgreSQL

    PostgREST turns every "*" of a like pattern into "%"; PostgreSQL's
    LIKE then reads "%" as any run, "_" as one character and "\" as the
    escape character. A pattern ending in a lone "\" is rejected. *)
Fixpoint like_translate (pat : list ascii) : option (list gtok) :=
  match pat with
  | [] => Some []
  | c :: rest =>
      if Ascii.eqb c "%"%char || Ascii.eqb c "*"%char then
        option_map (cons GStar) (like_translate rest)
      else if Ascii.eqb c "_"%char then
        option_map (cons (GChar (fun _ => true))) (like_translate rest)
      else if Ascii.eqb c "\"%char then
        match rest with
        | [] => None
        | d :: rest' =>
            option_map (cons (GChar (Ascii.eqb (if Ascii.eqb d "*"%char then "%"%char else d))))
              (like_translate rest')
        end
      else option_map (cons (GChar (Ascii.eqb c))) (like_translate rest)
  end.

Definition like_match (pat s : string) : option bool :=
  option_map (fun ts => gmatch ts (chars s)) (like_translate (chars pat)).

(* ------------------------------------------------------------------ *)
(** ** The storage.objects table and the postgrest query builder *)

(** A row of storage.objects, as far as the module reads it. *)
Record obj := {
  o_bucket_id : string;
  o_name : string;
  o_created_at : pyval;
  o_updated_at : pyval;
  o_last_accessed_at : pyval;
  o_metadata : pyval
}.

Definition obj_col (o : obj) (col : string) : option string :=
  if String.eqb col "name" then Some (o_name o)
  else if String.eqb col "bucket_id" then Some (o_bucket_id o)
  else None.

(** The filters the module adds: [.eq], [.like] and [.like_any_of]
    (whose comma-joined patterns PostgREST splits again). *)
Inductive filt :=
| FEq (col v : string)
| FLike (col pat : string)
| FLikeAnyOf (col pats : string).

Fixpoint split_commas_aux (l : list ascii) (cur : list ascii) : list string :=
  match l with
  | [] => [string_of_list_ascii (rev cur)]
  | c :: l' =>
      if Ascii.eqb c ","%char then string_of_list_ascii (rev cur) :: split_commas_aux l' []
      else split_commas_aux l' (c :: cur)
  end.

Definition split_commas (s : string) : list string := split_commas_aux (chars s) [].

(** [Err APIError] when the server rejects a pattern. *)
Definition filt_holds (o : obj) (f : filt) : res bool :=
  match f with
  | FEq col v =>
      match obj_col o col with Some x => Ok (String.eqb x v) | None => Err APIError end
  | FLike col pat =>
      match obj_col o col with
      | Some x => match like_match pat x with Some b => Ok b | None => Err APIError end
      | None => Err APIError
      end
  | FLikeAnyOf col pats =>
      match obj_col o col with
      | None => Err APIError
      | Some x =>
          fold_right (fun p acc =>
            match like_match p x, acc with
            | Some b, Ok b' => Ok (b || b')
            | _, _ => Err APIError
            end) (Ok false) (split_commas pats)
      end
  end.

Fixpoint all_filters (o : obj) (fs : list filt) : res bool :=
  match fs with
  | [] => Ok true
  | f :: fs' => let? b := filt_holds o f in
                let? b' := all_filters o fs' in Ok (b && b')
  end.

Fixpoint filter_rows (fs : list filt) (table : list obj) : res (list obj) :=
  match table with
  | [] => Ok []
  | o :: t =>
      let? b := all_filters o fs in
      let? rest := filter_rows fs t in
      Ok (if b then o :: rest else rest)
  end.

Record query := {
  q_filters : list filt;
  q_limit : option nat;
  q_offset : option nat;
  q_order : option (list (string * pyval))
}.

Definition add_filter (q : query) (f : filt) : query :=
  {| q_filters := (q_filters q ++ [f])%list; q_limit := q_limit q;
     q_offset := q_offset q; q_order := q_order q |}.

(** [select('name, created_at, updated_at, last_accessed_at,
    metadata->size')]: PostgREST names the arrow column [size]. *)
Definition select_row (o : obj) : pyval :=
  PDict [("name", PStr (o_name o));
         ("created_at", o_created_at o);
         ("updated_at", o_updated_at o);
         ("last_accessed_at", o_last_accessed_at o);
         ("size", match o_metadata o with PDict kvs => dict_get_opt kvs "size" | _ => PNone end)].

(** The storage client: only its storage endpoint is read directly. *)
Record client := { storage_url : string }.

(** The private fields of a [Bucket]. *)
Record Bucket := {
  b_supabase : client;
  b_bucket_id : string;
  b_path : option string;
  b_extensions : list string
}.

(** [Bucket(supabase, bucket_id, path, extensions=extensions)];
    [extensions or ()]. *)
Definition Bucket_init (supabase : client) (bucket_id : string) (path : option string)
    (extensions : option (list string)) : Bucket :=
  {| b_supabase := supabase; b_bucket_id := bucket_id; b_path := path;
     b_extensions := match extensions with Some e => e | None => [] end |}.

Definition public_url (b : Bucket) : string :=
  storage_url (b_supabase b) ++ "/object/public/" ++ b_bucket_id b ++ "/".

(** [Bucket._query] *)
Definition _query (b : Bucket) : query :=
  let q0 := {| q_filters := [FEq "bucket_id" (b_bucket_id b)];
               q_limit := None; q_offset := None; q_order := None |} in
  let q1 := match b_path b with
            | Some p => add_filter q0 (FLike "name" (p ++ "%"))
            | None => q0
            end in
  match b_extensions b with
  | [] => q1
  | exts => add_filter q1 (FLikeAnyOf "name" (String.concat "," (map (fun e => "%" ++ e) exts)))
  end.

(* ------------------------------------------------------------------ *)
(** ** datetime.fromisoformat and datetime.timestamp

    The date part is the extended form YYYY-MM-DD (other ISO date forms
    are a [ValueError] here); the time and time-zone parts follow
    _parse_isoformat_time and _parse_hh_mm_ss_ff of CPython 3.11. *)

Record datetime := {
  dt_year : Z; dt_month : Z; dt_day : Z;
  dt_hour : Z; dt_minute : Z; dt_second : Z; dt_micro : Z;
  dt_tzoffset : option Z           (* seconds east of UTC; None: naive *)
}.

Definition digit_val (c : ascii) : option Z :=
  let n := nat_of_ascii c in
  if Nat.leb 48 n && Nat.leb n 57 then Some (Z.of_nat (n - 48)) else None.

Fixpoint digits_val_aux (l : list ascii) (acc : Z) : option Z :=
  match l with
  | [] => Some acc
  | c :: l' => match digit_val c with
               | Some d => digits_val_aux l' (acc * 10 + d)%Z
               | None => None
               end
  end.

Definition digits_val (l : list ascii) : res Z :=
  match l with
  | [] => Err ValueError
  | _ => match digits_val_aux l 0%Z with Some z => Ok z | None => Err ValueError end
  end.

Definition is_leap (y : Z) : bool :=
  (Z.eqb (Z.modulo y 4) 0 && negb (Z.eqb (Z.modulo y 100) 0)) || Z.eqb (Z.modulo y 400) 0.

Definition days_in_month (y m : Z) : Z :=
  if Z.eqb m 2 then (if is_leap y then 29 else 28)
  else if existsb (Z.eqb m) [4; 6; 9; 11]%Z then 30 else 31.

Definition parse_date (l : list ascii) : res (Z * Z * Z) :=
  if negb (Nat.eqb (List.length l) 10) then Err ValueError
  else if negb (Ascii.eqb (nth 4 l " "%char) "-"%char && Ascii.eqb (nth 7 l " "%char) "-"%char)
  then Err ValueError
  else
    let? y := digits_val (slice l 0 4) in
    let? m := digits_val (slice l 5 7) in
    let? d := digits_val (slice l 8 10) in
    if (1 <=? y)%Z && (y <=? 9999)%Z && (1 <=? m)%Z && (m <=? 12)%Z
       && (1 <=? d)%Z && (d <=? days_in_month y m)%Z
    then Ok (y, m, d) else Err ValueError.

(** [_FRACTION_CORRECTION]: scale a fraction of [n] digits to
    microseconds. *)
Definition frac_scale (n : nat) : Z := Z.pow 10 (Z.of_nat (6 - n)).

Definition parse_fraction (l : list ascii) : res Z :=
  let to_parse := Nat.min 6 (List.length l) in
  let? f := digits_val (firstn to_parse l) in
  if forallb (fun c => match digit_val c with Some _ => true | None => false end)
       (skipn to_parse l)
  then Ok (f * frac_scale to_parse)%Z else Err ValueError.

(** _parse_hh_mm_ss_ff: hour, minute, second, microsecond. *)
Definition parse_hh_mm_ss_ff (l : list ascii) : res (Z * Z * Z * Z) :=
  let n := List.length l in
  let next (pos : nat) : option ascii := nth_error l pos in
  if Nat.ltb n 2 then Err ValueError else
  let? h := digits_val (slice l 0 2) in
  let has_sep := match next 2 with Some c => Ascii.eqb c ":"%char | None => false end in
  let sep := if has_sep then 1 else 0 in
  let tail (pos : nat) (hms : Z * Z * Z) : res (Z * Z * Z * Z) :=
    if Nat.ltb pos n then
      match next pos with
      | Some c =>
          if Ascii.eqb c "."%char || Ascii.eqb c ","%char
          then let? f := parse_fraction (skipn (S pos) l) in Ok (hms, f)
          else Err ValueError
      | None => Ok (hms, 0%Z)
      end
    else Ok (hms, 0%Z) in
  match next 2 with
  | None => Ok (h, 0%Z, 0%Z, 0%Z)
  | Some _ =>
      let p1 := 2 + sep in
      if Nat.ltb (n - p1) 2 then Err ValueError else
      let? m := digits_val (slice l p1 (p1 + 2)) in
      match next (p1 + 2) with
      | None => Ok (h, m, 0%Z, 0%Z)
      | Some c =>
          if has_sep && negb (Ascii.eqb c ":"%char) then Err ValueError else
          let p2 := p1 + 2 + sep in
          if Nat.ltb (n - p2) 2 then Err ValueError else
          let? s := digits_val (slice l p2 (p2 + 2)) in
          tail (p2 + 2) (h, m, s)
      end
  end.

Definition find_index (c : ascii) (l : list ascii) : option nat := find_from c l 0.

(** _parse_isoformat_time: the time-zone marker is the first "-", else
    the first "+", else the first "Z". *)
Definition parse_isoformat_time (l : list ascii) : res (Z * Z * Z * Z * option Z) :=
  if Nat.ltb (List.length l) 2 then Err ValueError else
  let tz := match find_index "-"%char l with
            | Some i => Some i
            | None => match find_index "+"%char l with
                      | Some i => Some i
                      | None => find_index "Z"%char l
                      end
            end in
  match tz with
  | None =>
      let? c := parse_hh_mm_ss_ff l in Ok (c, None)
  | Some i =>
      let? c := parse_hh_mm_ss_ff (firstn i l) in
      let tzstr := skipn (S i) l in
      if Nat.eqb (S i) (List.length l) && Ascii.eqb (nth i l " "%char) "Z"%char
      then Ok (c, Some 0%Z)
      else if existsb (Nat.eqb (List.length tzstr)) [0; 1; 3] then Err ValueError
      else
        let? '(th, tm, ts, tus) := parse_hh_mm_ss_ff tzstr in
        let sign := if Ascii.eqb (nth i l " "%char) "-"%char then (-1)%Z else 1%Z in
        (* timezone(td) requires |td| < 24h; sub-second offsets are not
           represented here *)
        let off := (th * 3600 + tm * 60 + ts)%Z in
        if (off <? 86400)%Z && Z.eqb tus 0 then Ok (c, Some (sign * off)%Z) else Err ValueError
  end.

Definition fromisoformat (t : string) : res datetime :=
  let l := chars t in
  let? '(y, mo, d) := parse_date (firstn 10 l) in
  let? '(hmsu, tz) :=
    if Nat.leb (List.length l) 10 then Ok ((0, 0, 0, 0)%Z, None)
    else parse_isoformat_time (skipn 11 l) in
  let '(h, mi, s, us) := hmsu in
  if (h <? 24)%Z && (mi <? 60)%Z && (s <? 60)%Z
  then Ok {| dt_year := y; dt_month := mo; dt_day := d; dt_hour := h; dt_minute := mi;
             dt_second := s; dt_micro := us; dt_tzoffset := tz |}
  else Err ValueError.

(** Days since 1970-01-01 of a proleptic Gregorian date. *)
Definition days_from_civil (y m d : Z) : Z :=
  let y' := if (m <=? 2)%Z then (y - 1)%Z else y in
  let era := (y' / 400)%Z in
  let yoe := (y' - era * 400)%Z in
  let mp := if (m >? 2)%Z then (m - 3)%Z else (m + 9)%Z in
  let doy := ((153 * mp + 2) / 5 + d - 1)%Z in
  let doe := (yoe * 365 + yoe / 4 - yoe / 100 + doy)%Z in
  (era * 146097 + doe - 719468)%Z.

(** [dt.timestamp()] of an aware datetime, as an exact rational; the
    float rounding of Python's result is not modelled. *)
Definition aware_timestamp (dt : datetime) (off : Z) : Q :=
  inject_Z (days_from_civil (dt_year dt) (dt_month dt) (dt_day dt) * 86400
            + dt_hour dt * 3600 + dt_minute dt * 60 + dt_second dt - off)
  + (dt_micro dt # 1000000).

(* ------------------------------------------------------------------ *)
(** ** File records, UI output, the environment *)

(** [class File(TypedDict)] *)
Record File := {
  path : pyval;
  size : pyval;
  create_time : Q;
  update_time : Q;
  access_time : Q
}.

Definition bytes := list Byte.byte.

(** What the module writes to the page, in order. *)
Inductive ui_ev :=
| UContainer                                (* st.container() *)
| UExpander                                 (* st.expander("", expanded=True) *)
| UError (msg : string)                     (* st.error *)
| UException (e : exn)                      (* st.exception *)
| UImage (content : bytes)                  (* st.image *)
| UVideo (url : option string) (mime : string)   (* st.video *)
| UAudio (content : bytes) (mime : string)  (* st.audio *)
| UInfo (msg : string)                      (* st.info *)
| UWarning (msg : string)                   (* st.warning *)
| UOutput (h : handler) (detail : string).  (* output of a preview handler *)

(** The keyword arguments of [_component_func]. *)
Record component_args := {
  ca_files : list File;
  ca_show_choose_file : bool;
  ca_show_choose_folder : bool;
  ca_show_download_file : bool;
  ca_show_upload_file : bool;
  ca_show_delete_file : bool;
  ca_show_new_folder : bool;
  ca_show_rename_file : bool;
  ca_show_rename_folder : bool;
  ca_ignore_file_select_event : bool;
  ca_artifacts_download_site : string;
  ca_artifacts_site : string;
  ca_key : option string
}.

(** Code outside the repository. *)
Record env := {
  (** [requests.get(url).content], raising on a bad URL or a failed
      request ([url] is [None] when no site was given) *)
  http_get_content : option string -> res bytes;
  (** filetype's [image_match], [video_match], [audio_match]; the last
      two give the MIME type of the match *)
  image_match : bytes -> bool;
  video_match : bytes -> option string;
  audio_match : bytes -> option string;
  (** urllib.parse.urljoin *)
  urljoin : string -> string -> string;
  (** running a preview handler on a URL: what it writes, then whether
      it returned or raised *)
  run_handler : handler -> option string -> list ui_ev * res unit;
  (** the embedded UI bundle: the event it returns ([PNone] for None) *)
  component : component_args -> pyval;
  (** the server-side ordering requested by [query.order_by] with the [order_by] dict as keyword arguments *)
  apply_order : list (string * pyval) -> list obj -> res (list obj);
  (** [datetime.timestamp()] of a naive datetime (local time) *)
  local_timestamp : datetime -> Q
}.

Definition timestamp (E : env) (dt : datetime) : Q :=
  match dt_tzoffset dt with
  | Some off => aware_timestamp dt off
  | None => local_timestamp E dt
  end.

(** [datetime.fromisoformat(v)]: a non-string argument is a TypeError. *)
Definition fromisoformat_py (v : pyval) : res datetime :=
  match v with PStr s => fromisoformat s | _ => Err TypeError end.

Definition div1000 (t : Q) : Q := t / inject_Z 1000.

(** [translate_storage_file]: the keyword arguments are evaluated in
    source order (path, size, access_time, create_time, update_time). *)
Definition translate_storage_file (E : env) (storage_file : pyval) : res File :=
  let? p := getitem storage_file "name" in
  let? sz := getitem storage_file "size" in
  let? la := getitem storage_file "last_accessed_at" in
  let? dla := fromisoformat_py la in
  let? ca := getitem storage_file "created_at" in
  let? dca := fromisoformat_py ca in
  let? ua := getitem storage_file "updated_at" in
  let? dua := fromisoformat_py ua in
  Ok {| path := p; size := sz;
        access_time := div1000 (timestamp E dla);
        create_time := div1000 (timestamp E dca);
        update_time := div1000 (timestamp E dua) |}.

(* ------------------------------------------------------------------ *)
(** ** Bucket.list and Bucket.exists *)

(** [query.execute().data]: filters, then ordering, offset, limit. *)
Definition execute (E : env) (table : list obj) (q : query) : res (list pyval) :=
  let? rows := filter_rows (q_filters q) table in
  let? rows := match q_order q with Some o => apply_order E o rows | None => Ok rows end in
  let rows := match q_offset q with Some n => skipn n rows | None => rows end in
  let rows := match q_limit q with Some n => firstn n rows | None => rows end in
  Ok (map select_row rows).

(** [filter_func] of [Bucket.list]: [any(fnmatch.fnmatch(file['path'],
    pattern) for pattern in glob_patterns)]; fnmatch raises a TypeError
    on a path that is not a string. *)
Definition filter_func (glob_patterns : list string) (f : File) : res bool :=
  match glob_patterns with
  | [] => Ok false
  | _ :: _ =>
      match path f with
      | PStr s => Ok (existsb (fun pattern => fnmatch s pattern) glob_patterns)
      | _ => Err TypeError
      end
  end.

(** The glob-filter stage: [tuple(filter(filter_func, files))]. *)
Fixpoint glob_filter (glob_patterns : list string) (files : list File) : res (list File) :=
  match files with
  | [] => Ok []
  | f :: fs =>
      let? keep := filter_func glob_patterns f in
      let? rest := glob_filter glob_patterns fs in
      Ok (if keep then f :: rest else rest)
  end.

(** [tuple(filter(filter_func, map(translate_storage_file, raw_files)))]:
    the lazy [map] translates each row just before it is filtered. *)
Fixpoint translate_then_filter (E : env) (glob_patterns : list string) (raw : list pyval)
    : res (list File) :=
  match raw with
  | [] => Ok []
  | r :: rs =>
      let? f := translate_storage_file E r in
      let? keep := filter_func glob_patterns f in
      let? rest := translate_then_filter E glob_patterns rs in
      Ok (if keep then f :: rest else rest)
  end.

(** [if order_by:] -- a non-empty dict. *)
Definition order_truthy (order_by : option (list (string * pyval))) : bool :=
  match order_by with Some (_ :: _) => true | _ => false end.

Definition Bucket_list (E : env) (table : list obj) (b : Bucket) (glob_patterns : list string)
    (limit offset : option nat) (order_by : option (list (string * pyval))) : res (list File) :=
  let q := _query b in
  let q := {| q_filters := q_filters q; q_limit := limit; q_offset := offset;
              q_order := if order_truthy order_by then order_by else None |} in
  let? raw_files := execute E table q in
  translate_then_filter E glob_patterns raw_files.

(** The default of [Bucket.list]'s [glob_patterns]. *)
Definition Bucket_list_default_globs : list string := ["*/**"].

(** [bool(self._query().eq('name', path).maybe_single().execute())]:
    no row gives None, one row a response, more rows an error. The
    filter value is [str(path)]. *)
Definition Bucket_exists (E : env) (table : list obj) (b : Bucket) (p : pyval) : res bool :=
  let? rows := execute E table (add_filter (_query b) (FEq "name" (py_str p))) in
  match rows with
  | [] => Ok false
  | [_] => Ok true
  | _ :: _ :: _ => Err APIError
  end.

(* ------------------------------------------------------------------ *)
(** ** The state-and-exception monad

    The state is the page output so far and a heap of dict objects; the
    module-level [PREVIEW_HANDLERS] dict lives at a fixed location. *)

Record state := {
  heap : gmap nat dict;
  ui : list ui_ev
}.

Definition M (A : Type) : Type := state -> state * res A.

Definition mret {A} (a : A) : M A := fun s => (s, Ok a).

Definition mbind {A B} (m : M A) (k : A -> M B) : M B :=
  fun s => match m s with
           | (s', Ok a) => k a s'
           | (s', Err e) => (s', Err e)
           end.

Notation "'let!' x := m 'in' k" := (mbind m (fun x => k))
  (at level 200, x name, m at level 100, k at level 200).

Definition raise {A} (e : exn) : M A := fun s => (s, Err e).

Definition lift_res {A} (r : res A) : M A := fun s => (s, r).

(** [try: m except Exception as e: h(e)] *)
Definition try_except {A} (m : M A) (h : exn -> M A) : M A :=
  fun s => match m s with
           | (s', Ok a) => (s', Ok a)
           | (s', Err e) => h e s'
           end.

Definition emit (ev : ui_ev) : M unit :=
  fun s => ({| heap := heap s; ui := (ui s ++ [ev])%list |}, Ok tt).

Definition load (l : nat) : M dict :=
  fun s => match heap s !! l with
           | Some d => (s, Ok d)
           | None => (s, Err (OtherExn "unbound object"))
           end.

Definition store (l : nat) (d : dict) : M unit :=
  fun s => ({| heap := <[l := d]> (heap s); ui := ui s |}, Ok tt).

(** A new object at a location not in use. *)
Definition alloc (d : dict) : M nat :=
  fun s => let l := fresh (dom (heap s)) in
           ({| heap := <[l := d]> (heap s); ui := ui s |}, Ok l).

(** [copy.copy(d)]: a new dict object with the same entries. *)
Definition copy_copy (l : nat) : M nat :=
  let! d := load l in alloc d.

(** [d.update(other)] on the object at [l]. *)
Definition dict_update_at (l : nat) (other : dict) : M unit :=
  let! d := load l in store l (dict_update d other).

Definition call_handler (E : env) (h : handler) (url : option string) : M unit :=
  fun s => let '(out, r) := run_handler E h url in
           ({| heap := heap s; ui := (ui s ++ out)%list |}, r).

Definition PREVIEW_HANDLERS_loc : nat := 0.

(** The state after the module is imported. *)
Definition init_state : state :=
  {| heap := {[PREVIEW_HANDLERS_loc := PREVIEW_HANDLERS]}; ui := [] |}.

(* ------------------------------------------------------------------ *)
(** ** show_file_preview *)

Definition sniff_and_render (E : env) (url : option string) (ext : string) : M unit :=
  let! content := lift_res (http_get_content E url) in
  if image_match E content then emit (UImage content)
  else match video_match E content with
       | Some mime => emit (UVideo url mime)
       | None =>
           match audio_match E content with
           | Some mime => emit (UAudio content mime)
           | None => emit (UInfo ("No preview available for " ++ ext))
           end
       end.

(** [overide_preview_handles or {}] *)
Definition or_empty (overide_preview_handles : option dict) : dict :=
  match overide_preview_handles with Some o => o | None => [] end.

(** [urljoin(artifacts_site, target_path) if artifacts_site else None] *)
Definition preview_url (E : env) (artifacts_site : option string) (target_path : string)
    : option string :=
  match artifacts_site with
  | Some site => if String.eqb site "" then None else Some (urljoin E site target_path)
  | None => None
  end.

(** The branch taken on the copied handler map at [handles], holding
    [hs]: the handler of the extension inside try/except, or else the
    content-sniffing fallback. *)
Definition dispatch (E : env) (target_path : string) (url : option string) (ext : string)
    (handles : nat) (hs : dict) : M unit :=
  if dict_mem hs ext then
    try_except
      (let! hs' := load handles in
       match dict_lookup hs' ext with
       | Some h => call_handler E h url
       | None => raise (KeyError ext)
       end)
      (fun e => let! _ := emit (UError ("failed preview " ++ target_path)) in
                emit (UException e))
  else sniff_and_render E url ext.

(** [key], [height] and the empty [**kwargs] of the widget's call are
    not forwarded anywhere that matters and are left out. *)
Definition show_file_preview (E : env) (target_path : string) (artifacts_site : option string)
    (overide_preview_handles : option dict) : M unit :=
  let! _ := emit UContainer in
  let url := preview_url E artifacts_site target_path in
  let ext := splitext_ext target_path in
  let! handles := copy_copy PREVIEW_HANDLERS_loc in
  let! _ := dict_update_at handles (or_empty overide_preview_handles) in
  let! hs := load handles in
  dispatch E target_path url ext handles hs.

(** The call with a path taken from the UI event: a non-string path
    makes urljoin / os.path.splitext raise a TypeError once the
    container exists. *)
Definition show_file_preview_py (E : env) (target_path : pyval) (artifacts_site : option string)
    (overide_preview_handles : option dict) : M unit :=
  match target_path with
  | PStr s => show_file_preview E s artifacts_site overide_preview_handles
  | _ => let! _ := emit UContainer in raise TypeError
  end.

(* ------------------------------------------------------------------ *)
(** ** _do_pdf_preview *)

(** [s.replace(c, r)] for a one-character [c]. *)
Definition replace_char (c : ascii) (r : list ascii) (l : list ascii) : list ascii :=
  flat_map (fun x => if Ascii.eqb x c then r else [x]) l.

Definition dq_char : ascii := ascii_of_nat 34.
Definition dq : string := String dq_char EmptyString.

(** [html.escape(s, quote=True)]: "&" first, then "<", ">", the double
    quote and the single quote. *)
Definition html_escape (s : string) : string :=
  let l := chars s in
  let l := replace_char "&"%char (chars "&amp;") l in
  let l := replace_char "<"%char (chars "&lt;") l in
  let l := replace_char ">"%char (chars "&gt;") l in
  let l := replace_char dq_char (chars "&quot;") l in
  let l := replace_char "'"%char (chars "&#x27;") l in
  string_of_list_ascii l.

(** The markup [_do_pdf_preview(url, height)] passes to [st.markdown];
    [escape(None)] raises an AttributeError. *)
Definition do_pdf_preview (url : option string) (height : string) : res string :=
  match url with
  | None => Err AttributeError
  | Some u =>
      let safe_url := html_escape u in
      Ok ("<iframe src=" ++ dq ++ safe_url ++ dq ++ " width=" ++ dq ++ "100%" ++ dq
          ++ " min-height=" ++ dq ++ "240px" ++ dq ++ " height=" ++ dq ++ height
          ++ " type=" ++ dq ++ "application/pdf" ++ dq ++ "></iframe>")
  end.

(* ------------------------------------------------------------------ *)
(** ** st_supabase_storage_browser *)

(** The keyword arguments of the widget. *)
Record browser_opts := {
  show_preview : bool;
  show_preview_top : bool;
  glob_patterns : list string;
  ignore_file_select_event : bool;
  file_ignores : option (list string);          (* unused by the code *)
  select_filetype_ignores : option (list string);
  extentions : option (list string);
  show_delete_file : bool;
  show_choose_file : bool;
  show_choose_folder : bool;
  show_download_file : bool;
  show_new_folder : bool;
  show_upload_file : bool;
  show_rename_file : bool;
  show_rename_folder : bool;
  limit : option nat;
  offset : option nat;
  key : option string;
  use_cache : bool;                             (* unused by the code *)
  overide_preview_handles : option dict;
  sort : option (list (string * pyval))
}.

Definition default_opts : browser_opts :=
  {| show_preview := true; show_preview_top := false; glob_patterns := ["**/*"];
     ignore_file_select_event := false; file_ignores := None;
     select_filetype_ignores := None; extentions := None;
     show_delete_file := false; show_choose_file := false; show_choose_folder := false;
     show_download_file := true; show_new_folder := false; show_upload_file := false;
     show_rename_file := false; show_rename_folder := false;
     limit := None; offset := None; key := None; use_cache := false;
     overide_preview_handles := None; sort := None |}.

Definition mk_component_args (files : list File) (o : browser_opts) (b : Bucket)
    : component_args :=
  {| ca_files := files;
     ca_show_choose_file := show_choose_file o;
     ca_show_choose_folder := show_choose_folder o;
     ca_show_download_file := show_download_file o;
     ca_show_upload_file := show_upload_file o;
     ca_show_delete_file := show_delete_file o;
     ca_show_new_folder := show_new_folder o;
     ca_show_rename_file := show_rename_file o;
     ca_show_rename_folder := show_rename_folder o;
     ca_ignore_file_select_event := ignore_file_select_event o;
     ca_artifacts_download_site := public_url b;
     ca_artifacts_site := public_url b;
     ca_key := key o |}.

(** [any(event["target"]["path"].endswith(ft) for ft in
    select_filetype_ignores or [])]: the generator body, and with it
    the subscripts, runs once per ignored suffix. *)
Fixpoint ignored_suffix (event : pyval) (fts : list string) : res bool :=
  match fts with
  | [] => Ok false
  | ft :: fts' =>
      let? target := getitem event "target" in
      let? p := getitem target "path" in
      match p with
      | PStr s => if str_endswith s ft then Ok true else ignored_suffix event fts'
      | _ => Err AttributeError
      end
  end.

(** The condition of the [if] after the UI call, with [and]'s
    short-circuit. *)
Definition select_file_check (event : pyval) (select_filetype_ignores : option (list string))
    : res bool :=
  match event with
  | PDict kvs =>
      match dict_get_opt kvs "type" with
      | PStr t =>
          if String.eqb t "SELECT_FILE" then
            let? ig := ignored_suffix event
                         (match select_filetype_ignores with Some l => l | None => [] end) in
            Ok (negb ig)
          else Ok false
      | _ => Ok false
      end
  | _ => Ok false
  end.

Definition st_supabase_storage_browser (E : env) (table : list obj) (supabase : client)
    (bucket_id : string) (p : option string) (o : browser_opts) : M pyval :=
  let bucket := Bucket_init supabase bucket_id p (extentions o) in
  let! files := lift_res (Bucket_list E table bucket (glob_patterns o) (limit o) (offset o) (sort o)) in
  let! _ := if show_preview o && show_preview_top o then emit UContainer else mret tt in
  let event := component E (mk_component_args files o bucket) in
  let! sel := lift_res (select_file_check event (select_filetype_ignores o)) in
  if sel then
    let! file := lift_res (getitem event "target") in
    let! fp := lift_res (getitem file "path") in
    let! ex := lift_res (Bucket_exists E table bucket fp) in
    if negb ex then
      let! fp' := lift_res (getitem file "path") in
      let! _ := emit (UWarning ("File " ++ py_str fp' ++ " not found")) in
      mret event
    else if show_preview o then
      let! _ := emit UExpander in
      let! fp'' := lift_res (getitem file "path") in
      let! _ := show_file_preview_py E fp'' (Some (public_url bucket)) (overide_preview_handles o) in
      mret event
    else mret event
  else mret event.

(* ------------------------------------------------------------------ *)
(** ** Notions used in the statements *)

(** The handler map [show_file_preview] dispatches on: the global
    registry with the overrides merged on top. *)
Definition effective_handles (s : state) (overide_preview_handles : option dict) : option dict :=
  match heap s !! PREVIEW_HANDLERS_loc with
  | Some reg => Some (dict_update reg (or_empty overide_preview_handles))
  | None => None
  end.

(** The handler of the last declaration listing extension [k]. *)
Definition last_writer (decls : list (list string * handler)) (k : string) : option handler :=
  fold_left (fun acc eh => if existsb (String.eqb k) (fst eh) then Some (snd eh) else acc) decls None.

(** A sample environment for concrete runs: fetching fails without a
    URL and otherwise yields a PNG header; urljoin appends to a base
    ending in "/"; handlers write one line and return; the UI bundle
    returns [event]. *)
Definition png_magic : bytes := [Byte.x89; Byte.x50; Byte.x4e; Byte.x47].

Definition demo_env (event : pyval) : env :=
  {| http_get_content := fun url => match url with None => Err MissingSchema | Some _ => Ok png_magic end;
     image_match := fun c => match c with Byte.x89 :: Byte.x50 :: Byte.x4e :: Byte.x47 :: _ => true | _ => false end;
     video_match := fun _ => None;
     audio_match := fun _ => None;
     urljoin := fun base p => base ++ p;
     run_handler := fun h url => ([UOutput h (match url with Some u => u | None => "" end)], Ok tt);
     component := fun _ => event;
     apply_order := fun _ rows => Ok rows;
     local_timestamp := fun _ => 0%Q |}.

Definition demo_client : client := {| storage_url := "https://project.supabase.co/storage/v1" |}.

Definition demo_obj (bucket name : string) : obj :=
  {| o_bucket_id := bucket; o_name := name;
     o_created_at := PStr "2024-01-01T00:00:00Z";
     o_updated_at := PStr "2024-01-02T00:00:00Z";
     o_last_accessed_at := PStr "2024-01-03T00:00:00Z";
     o_metadata := PDict [("size", PInt 42)] |}.

Definition demo_site : option string := Some "https://project.supabase.co/storage/v1/object/public/bkt/".

Definition demo_table : list obj :=
  [demo_obj "bkt" "report.csv"; demo_obj "bkt" "data/a.csv"; demo_obj "other" "data/b.csv"].

(** Whether a record's path matches one of the patterns (the predicate
    [filter_func] computes on a string path). *)
Definition path_matches (glob_patterns : list string) (f : File) : bool :=
  match path f with
  | PStr s => existsb (fun pattern => fnmatch s pattern) glob_patterns
  | _ => false
  end.

(** [list(map(translate_storage_file, raw_files))], forced eagerly. *)
Fixpoint translate_all (E : env) (raw : list pyval) : res (list File) :=
  match raw with
  | [] => Ok []
  | r :: rs =>
      let? f := translate_storage_file E r in
      let? fs := translate_all E rs in
      Ok (f :: fs)
  end.

(** A record whose path is a string with a '/' in it. *)
Definition has_slash (f : File) : Prop :=
  exists s, path f = PStr s /\ In "/"%char (chars s).

(** The raw row of the scenario, as it sits in the storage table. *)
Definition raw_scenario_row : pyval :=
  PDict [("name", PStr "a/b.csv"); ("bucket_id", PStr "bkt");
         ("created_at", PStr "2024-01-01T00:00:00Z");
         ("updated_at", PStr "2024-01-02T00:00:00Z");
         ("last_accessed_at", PStr "2024-01-03T00:00:00Z");
         ("metadata", PDict [("size", PInt 42)])].

Definition demo_bucket : Bucket := Bucket_init demo_client "bkt" None None.

(** The records [demo_bucket.list(("**/*",))] returns on [demo_table]. *)
Definition demo_listing : list File :=
  match Bucket_list (demo_env PNone) demo_table demo_bucket ["**/*"] None None None with
  | Ok fs => fs
  | Err _ => []
  end.

Definition demo_file (name : string) : File :=
  {| path := PStr name; size := PInt 42; create_time := 0; update_time := 0; access_time := 0 |}.

(** Midnight UTC on the given day of January 2024. *)
Definition demo_dt (day : Z) : datetime :=
  {| dt_year := 2024; dt_month := 1; dt_day := day; dt_hour := 0; dt_minute := 0;
     dt_second := 0; dt_micro := 0; dt_tzoffset := Some 0%Z |}.

(** The container [st.container()] opens above the widget when the
    preview is shown on top. *)
Definition top_ui (o : browser_opts) : list ui_ev :=
  if show_preview o && show_preview_top o then [UContainer] else [].

(** A [SELECT_FILE] event for the object [name]. *)
Definition select_event (name : string) : pyval :=
  PDict [("type", PStr "SELECT_FILE"); ("target", PDict [("path", PStr name)])].






(** A glob pattern without "*", "?" or "[". *)
Definition fn_plain (pat : string) : bool :=
  forallb (fun c => negb (Ascii.eqb c "*"%char || Ascii.eqb c "?"%char || Ascii.eqb c "["%char))
    (chars pat).

(** A stored object whose created_at is not an ISO-8601 string. *)
Definition bad_obj : obj :=
  {| o_bucket_id := "bkt"; o_name := "notes.txt";
     o_created_at := PStr "yesterday";
     o_updated_at := PStr "2024-01-02T00:00:00Z";
     o_last_accessed_at := PStr "2024-01-03T00:00:00Z";
     o_metadata := PDict [("size", PInt 7)] |}.


(** The tokens [fnmatch] and LIKE give a run of literal characters. *)
Definition lit_toks (l : list ascii) : list gtok := map (fun c => GChar (Ascii.eqb c)) l.

(** Runs the widget up to the UI call, once its listing has succeeded. *)
Ltac run_browser Hl :=
  unfold st_supabase_storage_browser, mbind, lift_res, emit, mret, top_ui; cbv zeta;
  rewrite Hl; cbv beta iota;
  destruct (show_preview _ && show_preview_top _); cbv beta iota.

(** Refutes [In c l] for a concrete list. *)
Ltac not_in_lit := let H := fresh in intros H; vm_compute in H;
  repeat (destruct H as [H|H]; [discriminate H|]); exact H.

(** Splits a run of the widget at every exception the steps can raise
    and every branch they take. *)
Ltac split_res H :=
  repeat match type of H with
  | context [match ?x with _ => _ end] =>
      lazymatch x with
      | (_, _) => fail
      | _ => let Hx := fresh "Hx" in destruct x eqn:Hx; cbv beta iota in H
      end
  end.

Ltac inj_pairs :=
  repeat match goal with
  | Hx : (_, _) = (_, _) |- _ => injection Hx; clear Hx; intros; subst
  end.

(* ================================================================== *)
(** * Properties *)

Example splitext_ext_csv : splitext_ext "a/b.csv" = ".csv".
Proof. reflexivity. Qed.

Example splitext_ext_hidden : splitext_ext "a/.bashrc" = "".
Proof. reflexivity. Qed.

Example splitext_ext_dots : splitext_ext "..md" = "" /\ splitext_ext "a..md" = ".md".
Proof. split; reflexivity. Qed.

Example fnmatch_star_slash : fnmatch "a/b/c.csv" "*.csv" = true.
Proof. reflexivity. Qed.

Example fnmatch_unclosed : fnmatch "[ab" "[ab" = true.
Proof. reflexivity. Qed.
Example splitext_ext_tar : splitext_ext "dir.d/x.tar.gz" = ".gz".
Proof. reflexivity. Qed.
Example splitext_ext_dirdot : splitext_ext "dir.d/readme" = "".
Proof. reflexivity. Qed.
Example fnmatch_class : fnmatch "x1" "x[0-9]" = true /\ fnmatch "xa" "x[!0-9]" = true
  /\ fnmatch "x5" "x[!0-9]" = false /\ fnmatch "a" "[z-a]" = false.
Proof. repeat split; reflexivity. Qed.
Example fnmatch_qmark : fnmatch "ab" "a?" = true /\ fnmatch "a" "a?" = false.
Proof. split; reflexivity. Qed.

(* ------------------------------------------------------------------ *)
(** ** Dicts *)

Lemma assoc_get_app {V} (l1 l2 : list (string * V)) k :
  assoc_get (l1 ++ l2) k =
  match assoc_get l1 k with Some v => Some v | None => assoc_get l2 k end.
Proof.
  induction l1 as [|[k' v'] l1 IH]; simpl; [done|].
  destruct (String.eqb k' k); [done | exact IH].
Qed.

Lemma assoc_get_replace (d : dict) k v k' :
  assoc_get (map (fun kv => if String.eqb (fst kv) k then (k, v) else kv) d) k' =
  if String.eqb k k'
  then match assoc_get d k with Some _ => Some v | None => None end
  else assoc_get d k'.
Proof.
  induction d as [|[k0 v0] d IH]; simpl.
  - by destruct (String.eqb k k').
  - rewrite IH.
    destruct (String.eqb_spec k0 k) as [Hk0|Hk0]; simpl;
      destruct (String.eqb_spec k k') as [Hk|Hk];
      destruct (String.eqb_spec k0 k') as [Hk0'|Hk0']; subst; try done; congruence.
Qed.

Lemma dict_setitem_lookup (d : dict) k v k' :
  dict_lookup (dict_setitem d k v) k' =
  if String.eqb k k' then Some v else dict_lookup d k'.
Proof.
  unfold dict_setitem, dict_mem, dict_lookup.
  destruct (assoc_get d k) eqn:Hk.
  - rewrite assoc_get_replace, Hk. done.
  - rewrite assoc_get_app. destruct (String.eqb_spec k k') as [<-|Hne].
    + rewrite Hk. simpl. by rewrite String.eqb_refl.
    + destruct (assoc_get d k'); [done|]. simpl.
      destruct (String.eqb_spec k k'); [congruence | done].
Qed.

(** [d.update(other)]: for each key, the last value [other] gives it,
    else the old one. *)
Lemma dict_update_lookup (d other : dict) k :
  dict_lookup (dict_update d other) k =
  match assoc_get (rev other) k with Some v => Some v | None => dict_lookup d k end.
Proof.
  revert d. induction other as [|[k0 v0] other IH]; intros d; simpl; [done|].
  unfold dict_update in *. simpl. rewrite IH, assoc_get_app, dict_setitem_lookup. simpl.
  destruct (assoc_get (rev other) k); [done|].
  by destruct (String.eqb k0 k).
Qed.

Lemma assoc_get_Some_In {V} (l : list (string * V)) k v :
  assoc_get l k = Some v -> In (k, v) l.
Proof.
  induction l as [|[k0 v0] l IH]; simpl; [done|].
  destruct (String.eqb_spec k0 k) as [->|_]; [intros [= ->]; by left | intros H; right; auto].
Qed.

Lemma assoc_get_None_notin {V} (l : list (string * V)) k :
  assoc_get l k = None -> ~ In k (map fst l).
Proof.
  induction l as [|[k0 v0] l IH]; simpl; [tauto|].
  destruct (String.eqb_spec k0 k); [done|]. intros H [?|?]; [congruence | by apply IH].
Qed.

Lemma assoc_get_In_NoDup {V} (l : list (string * V)) k v :
  NoDup (map fst l) -> In (k, v) l -> assoc_get l k = Some v.
Proof.
  induction l as [|[k0 v0] l IH]; simpl; [done|].
  intros Hnd Hin. apply NoDup_cons in Hnd as [Hn Hnd].
  destruct (String.eqb_spec k0 k) as [->|Hne].
  - destruct Hin as [[= ->]|Hin]; [done|].
    exfalso. apply Hn. apply list_elem_of_In. apply (in_map fst) in Hin. exact Hin.
  - destruct Hin as [[= -> ->]|Hin]; [done | by apply IH].
Qed.

Lemma assoc_get_rev_NoDup {V} (l : list (string * V)) k :
  NoDup (map fst l) -> assoc_get (rev l) k = assoc_get l k.
Proof.
  intros Hnd.
  assert (Hnd' : NoDup (map fst (rev l))).
  { rewrite map_rev. apply NoDup_ListNoDup, List.NoDup_rev, NoDup_ListNoDup. exact Hnd. }
  destruct (assoc_get l k) as [v|] eqn:Hl.
  - apply assoc_get_In_NoDup; [exact Hnd'|]. apply in_rev. rewrite rev_involutive.
    by apply assoc_get_Some_In.
  - destruct (assoc_get (rev l) k) as [v|] eqn:Hr; [|done].
    apply assoc_get_Some_In in Hr. apply in_rev in Hr.
    apply (in_map fst) in Hr. exfalso. by apply (assoc_get_None_notin l k).
Qed.

Lemma dict_setitem_keys_NoDup (d : dict) k v :
  NoDup (map fst d) -> NoDup (map fst (dict_setitem d k v)).
Proof.
  unfold dict_setitem, dict_mem, dict_lookup. intros Hnd.
  destruct (assoc_get d k) eqn:Hk.
  - assert (Hkeys : forall d' : dict,
      map fst (map (fun kv => if String.eqb (fst kv) k then (k, v) else kv) d') = map fst d').
    { induction d' as [|[k0 v0] d' IH]; simpl; [done|].
      rewrite IH. by destruct (String.eqb_spec k0 k) as [->|]. }
    rewrite Hkeys. exact Hnd.
  - rewrite map_app. simpl. apply NoDup_app. split; [exact Hnd|]. split.
    + intros x Hx Hxk. apply list_elem_of_In in Hx, Hxk.
      destruct Hxk as [->|[]]. by apply (assoc_get_None_notin d x).
    + apply NoDup_singleton.
Qed.

Lemma dict_comprehension_lookup decls k :
  dict_lookup (dict_comprehension decls) k = last_writer decls k.
Proof.
  unfold dict_comprehension, last_writer.
  assert (Hinner : forall exts h acc,
    dict_lookup (fold_left (fun acc' ext => dict_setitem acc' ext h) exts acc) k =
    if existsb (String.eqb k) exts then Some h else dict_lookup acc k).
  { induction exts as [|e exts IH]; intros h acc; simpl; [done|].
    rewrite IH, dict_setitem_lookup, (String.eqb_sym e k).
    by destruct (String.eqb k e), (existsb (String.eqb k) exts). }
  change (@None handler) with (dict_lookup [] k).
  generalize (@nil (string * handler)) as acc.
  induction decls as [|[exts h] decls IH]; intros acc; simpl; [done|].
  rewrite IH, Hinner. done.
Qed.

Lemma dict_comprehension_keys_NoDup decls : NoDup (map fst (dict_comprehension decls)).
Proof.
  unfold dict_comprehension.
  assert (H : forall acc : dict, NoDup (map fst acc) ->
    NoDup (map fst (fold_left (fun acc eh =>
       fold_left (fun acc' ext => dict_setitem acc' ext (snd eh)) (fst eh) acc) decls acc))).
  { induction decls as [|[exts h] decls IH]; intros acc Hacc; simpl; [done|].
    apply IH. simpl. clear IH. revert acc Hacc.
    induction exts as [|e exts IHe]; intros acc Hacc; simpl; [done|].
    apply IHe. by apply dict_setitem_keys_NoDup. }
  apply H. constructor.
Qed.

(* ------------------------------------------------------------------ *)
(** ** The handler registry *)

(** C8: in the flattened registry every extension has one entry, the
    entry is the handler of the last declaration listing it, and for
    ".md", registered first with the plain-text handler and then with
    the markdown handler, the lookup gives the markdown handler. *)
Theorem PREVIEW_HANDLERS_md_last_writer_wins :
  (forall k, dict_lookup PREVIEW_HANDLERS k = last_writer PREVIEW_HANDLERS_decls k) /\
  NoDup (map fst PREVIEW_HANDLERS) /\
  In ([".log"; ".txt"; ".md"; ".upf"; ".UPF"; ".orb"], H_plain) PREVIEW_HANDLERS_decls /\
  dict_lookup PREVIEW_HANDLERS ".md" = Some H_markdown /\
  dict_lookup PREVIEW_HANDLERS ".md" <> Some H_plain.
Proof.
  split; [intros k; unfold PREVIEW_HANDLERS; apply dict_comprehension_lookup|].
  split; [unfold PREVIEW_HANDLERS; apply dict_comprehension_keys_NoDup|].
  split; [unfold PREVIEW_HANDLERS_decls; simpl; tauto|].
  assert (Hmd : dict_lookup PREVIEW_HANDLERS ".md" = Some H_markdown)
    by (unfold PREVIEW_HANDLERS; rewrite dict_comprehension_lookup; reflexivity).
  split; [exact Hmd|]. rewrite Hmd. discriminate.
Qed.

(* ------------------------------------------------------------------ *)
(** ** show_file_preview *)

(** Once the global registry is found, the call writes the container,
    copies the registry to a fresh location, merges the overrides into
    the copy and dispatches on it. *)
Lemma show_file_preview_unfold E p site ov s reg :
  heap s !! PREVIEW_HANDLERS_loc = Some reg ->
  show_file_preview E p site ov s =
  dispatch E p (preview_url E site p) (splitext_ext p) (fresh (dom (heap s)))
    (dict_update reg (or_empty ov))
    {| heap := <[fresh (dom (heap s)) := dict_update reg (or_empty ov)]> (heap s);
       ui := (ui s ++ [UContainer])%list |}.
Proof.
  destruct s as [h u]. simpl. intros H.
  cbv [show_file_preview copy_copy dict_update_at mbind emit load alloc store].
  simpl. rewrite H. simpl. rewrite lookup_insert_eq. simpl.
  rewrite insert_insert_eq, lookup_insert_eq. reflexivity.
Qed.

(** Without a global registry object the call fails before dispatching. *)
Lemma show_file_preview_unfold_none E p site ov s :
  heap s !! PREVIEW_HANDLERS_loc = None ->
  show_file_preview E p site ov s =
  ({| heap := heap s; ui := (ui s ++ [UContainer])%list |}, Err (OtherExn "unbound object")).
Proof.
  destruct s as [h u]. simpl. intros H.
  cbv [show_file_preview copy_copy mbind emit load]. simpl. rewrite H. reflexivity.
Qed.

Lemma fresh_not_registry (s : state) reg :
  heap s !! PREVIEW_HANDLERS_loc = Some reg ->
  fresh (dom (heap s)) <> PREVIEW_HANDLERS_loc /\ heap s !! fresh (dom (heap s)) = None.
Proof.
  intros H. pose proof (is_fresh (dom (heap s))) as Hf.
  apply not_elem_of_dom in Hf. split; [|exact Hf]. intros Heq. rewrite Heq in Hf. congruence.
Qed.

(** The handler branch: the handler's output, and on an exception the
    error line and the exception; the call itself returns. *)
Lemma dispatch_handler E p url ext l d h s :
  heap s !! l = Some d -> dict_lookup d ext = Some h ->
  dispatch E p url ext l d s =
  let '(out, r) := run_handler E h url in
  match r with
  | Ok _ => ({| heap := heap s; ui := (ui s ++ out)%list |}, Ok tt)
  | Err e => ({| heap := heap s;
                 ui := ((ui s ++ out) ++ [UError ("failed preview " ++ p)]) ++ [UException e] |},
              Ok tt)
  end%list.
Proof.
  intros Hl Hd. unfold dispatch, dict_mem. rewrite Hd.
  unfold try_except, mbind, load, call_handler, emit. rewrite Hl, Hd.
  destruct (run_handler E h url) as [out [[]|e]]; reflexivity.
Qed.

(** The fallback: only taken when the extension has no entry. *)
Lemma dispatch_fallback E p url ext l d s :
  dict_lookup d ext = None ->
  dispatch E p url ext l d s = sniff_and_render E url ext s.
Proof. intros Hd. unfold dispatch, dict_mem. rewrite Hd. reflexivity. Qed.

(** The fallback writes the same lines after any prior output, and
    leaves the heap alone. *)
Lemma sniff_and_render_frame E url ext :
  exists out r, forall s,
    sniff_and_render E url ext s = ({| heap := heap s; ui := (ui s ++ out)%list |}, r).
Proof.
  unfold sniff_and_render, mbind, lift_res, emit.
  destruct (http_get_content E url) as [content|e].
  - destruct (image_match E content).
    + eexists _, _. intros s. reflexivity.
    + destruct (video_match E content) as [m|].
      * eexists _, _. intros s. reflexivity.
      * destruct (audio_match E content) as [m|]; eexists _, _; intros s; reflexivity.
  - exists [], (Err e). intros s. rewrite app_nil_r. destruct s. reflexivity.
Qed.

Lemma dispatch_heap E p url ext l d s :
  heap (fst (dispatch E p url ext l d s)) = heap s.
Proof.
  unfold dispatch. destruct (dict_mem d ext).
  - unfold try_except, mbind, load, call_handler, emit, raise.
    destruct (heap s !! l) as [d'|]; simpl; [|reflexivity].
    destruct (dict_lookup d' ext) as [h|]; simpl; [|reflexivity].
    destruct (run_handler E h url) as [out [[]|e]]; reflexivity.
  - destruct (sniff_and_render_frame E url ext) as (out & r & H). rewrite H. reflexivity.
Qed.

Lemma preview_url_urljoin E E' site p :
  urljoin E' = urljoin E -> preview_url E' site p = preview_url E site p.
Proof. intros H. unfold preview_url. by rewrite H. Qed.

Lemma effective_handles_Some s ov d :
  effective_handles s ov = Some d ->
  exists reg, heap s !! PREVIEW_HANDLERS_loc = Some reg /\ d = dict_update reg (or_empty ov).
Proof.
  unfold effective_handles. destruct (heap s !! PREVIEW_HANDLERS_loc) as [reg|]; [|discriminate].
  intros [= <-]. by exists reg.
Qed.

(** C1 (the fallback is outside the try): when the extension has no
    handler and fetching the file raises, the exception escapes
    [show_file_preview]. *)
Theorem show_file_preview_fallback_fetch_error_escapes E p site ov s reg e :
  heap s !! PREVIEW_HANDLERS_loc = Some reg ->
  dict_lookup (dict_update reg (or_empty ov)) (splitext_ext p) = None ->
  http_get_content E (preview_url E site p) = Err e ->
  snd (show_file_preview E p site ov s) = Err e.
Proof.
  intros Hreg Hnone Hget.
  rewrite (show_file_preview_unfold _ _ _ _ _ reg Hreg), dispatch_fallback by exact Hnone.
  unfold sniff_and_render, mbind, lift_res. rewrite Hget. reflexivity.
Qed.

(** C6: the outcome of a call is fixed by the effective handler map and
    the path; when the extension has an entry, the call runs that
    handler on the resolved URL inside the try (its exceptions become
    an error line and the exception) and neither fetches the file nor
    sniffs its content: the result does not depend on them. *)
Theorem show_file_preview_dispatch_deterministic E p site ov1 ov2 s1 s2 d :
  effective_handles s1 ov1 = Some d -> effective_handles s2 ov2 = Some d -> ui s1 = ui s2 ->
  (ui (fst (show_file_preview E p site ov1 s1)) = ui (fst (show_file_preview E p site ov2 s2)) /\
   snd (show_file_preview E p site ov1 s1) = snd (show_file_preview E p site ov2 s2)) /\
  forall h, dict_lookup d (splitext_ext p) = Some h ->
    (forall E', run_handler E' = run_handler E -> urljoin E' = urljoin E ->
       show_file_preview E' p site ov1 s1 = show_file_preview E p site ov1 s1) /\
    (let '(out, r) := run_handler E h (preview_url E site p) in
     ui (fst (show_file_preview E p site ov1 s1)) =
       (ui s1 ++ [UContainer] ++ out ++
        match r with
        | Ok _ => []
        | Err e => [UError ("failed preview " ++ p); UException e]
        end)%list /\
     snd (show_file_preview E p site ov1 s1) = Ok tt).
Proof.
  intros H1 H2 Hui.
  apply effective_handles_Some in H1 as (reg1 & Hreg1 & ->).
  apply effective_handles_Some in H2 as (reg2 & Hreg2 & Hd).
  rewrite (show_file_preview_unfold _ _ _ _ _ reg1 Hreg1).
  rewrite (show_file_preview_unfold _ _ _ _ _ reg2 Hreg2), <- Hd.
  split.
  - destruct (dict_lookup (dict_update reg1 (or_empty ov1)) (splitext_ext p)) as [h|] eqn:Hh.
    + rewrite !(dispatch_handler _ _ _ _ _ _ h) by (simpl; apply lookup_insert_eq || exact Hh).
      destruct (run_handler E h (preview_url E site p)) as [out [[]|e]]; simpl;
        rewrite Hui; split; reflexivity.
    + rewrite !dispatch_fallback by exact Hh.
      destruct (sniff_and_render_frame E (preview_url E site p) (splitext_ext p)) as (out & r & Hs).
      rewrite !Hs. simpl. rewrite Hui. split; reflexivity.
  - intros h Hh. split.
    + intros E' Hrun Hurl.
      rewrite (show_file_preview_unfold _ _ _ _ _ reg1 Hreg1), (preview_url_urljoin E E' site p Hurl).
      rewrite !(dispatch_handler _ _ _ _ _ _ h) by (simpl; apply lookup_insert_eq || exact Hh).
      rewrite Hrun. reflexivity.
    + rewrite (dispatch_handler _ _ _ _ _ _ h) by (simpl; apply lookup_insert_eq || exact Hh).
      destruct (run_handler E h (preview_url E site p)) as [out [[]|e]]; simpl.
      * rewrite app_nil_r, <- app_assoc. split; reflexivity.
      * rewrite <- !app_assoc. split; reflexivity.
Qed.

(** C7: a call never changes the global registry object; it works on a
    new dict at a location that was unused, holding the registry's
    entries with the overrides merged on top (an override wins on a
    shared key). *)
Theorem show_file_preview_registry_unchanged E p site ov s :
  heap (fst (show_file_preview E p site ov s)) !! PREVIEW_HANDLERS_loc =
    heap s !! PREVIEW_HANDLERS_loc /\
  forall reg, heap s !! PREVIEW_HANDLERS_loc = Some reg -> NoDup (map fst (or_empty ov)) ->
    exists l, l <> PREVIEW_HANDLERS_loc /\ heap s !! l = None /\
      heap (fst (show_file_preview E p site ov s)) !! l = Some (dict_update reg (or_empty ov)) /\
      forall k, dict_lookup (dict_update reg (or_empty ov)) k =
        match dict_lookup (or_empty ov) k with Some h => Some h | None => dict_lookup reg k end.
Proof.
  split.
  - destruct (heap s !! PREVIEW_HANDLERS_loc) as [reg|] eqn:Hreg.
    + rewrite (show_file_preview_unfold _ _ _ _ _ reg Hreg), dispatch_heap. simpl.
      destruct (fresh_not_registry s reg Hreg) as [Hne _].
      rewrite lookup_insert_ne by congruence. exact Hreg.
    + rewrite (show_file_preview_unfold_none E p site ov s Hreg). exact Hreg.
  - intros reg Hreg Hnd.
    destruct (fresh_not_registry s reg Hreg) as [Hne Hfree].
    exists (fresh (dom (heap s))). split; [exact Hne|]. split; [exact Hfree|]. split.
    + rewrite (show_file_preview_unfold _ _ _ _ _ reg Hreg), dispatch_heap. simpl.
      apply lookup_insert_eq.
    + intros k. rewrite dict_update_lookup, assoc_get_rev_NoDup by exact Hnd. reflexivity.
Qed.

Lemma show_file_preview_fallback_fetch_error_escapes_witness :
  snd (show_file_preview (demo_env PNone) "data.bin" None None init_state) = Err MissingSchema.
Proof.
  apply (show_file_preview_fallback_fetch_error_escapes (demo_env PNone) "data.bin" None None
           init_state PREVIEW_HANDLERS MissingSchema); vm_compute; reflexivity.
Defined.

Lemma show_file_preview_dispatch_deterministic_witness :
  (ui (fst (show_file_preview (demo_env PNone) "notes.md" demo_site None init_state)) =
   ui (fst (show_file_preview (demo_env PNone) "notes.md" demo_site
              (Some [(".md", H_markdown)]) init_state)) /\
   snd (show_file_preview (demo_env PNone) "notes.md" demo_site None init_state) =
   snd (show_file_preview (demo_env PNone) "notes.md" demo_site
          (Some [(".md", H_markdown)]) init_state)).
Proof.
  assert (H1 : effective_handles init_state None = Some PREVIEW_HANDLERS)
    by (vm_compute; reflexivity).
  assert (H2 : effective_handles init_state (Some [(".md", H_markdown)]) = Some PREVIEW_HANDLERS)
    by (vm_compute; reflexivity).
  exact (proj1 (show_file_preview_dispatch_deterministic (demo_env PNone) "notes.md" demo_site
                  None (Some [(".md", H_markdown)]) init_state init_state PREVIEW_HANDLERS
                  H1 H2 eq_refl)).
Defined.

Lemma show_file_preview_registry_unchanged_witness :
  exists l, l <> PREVIEW_HANDLERS_loc /\ heap init_state !! l = None /\
    heap (fst (show_file_preview (demo_env PNone) "notes.md" demo_site
                 (Some [(".md", H_custom "mdx")]) init_state)) !! l =
      Some (dict_update PREVIEW_HANDLERS [(".md", H_custom "mdx")]) /\
    forall k, dict_lookup (dict_update PREVIEW_HANDLERS [(".md", H_custom "mdx")]) k =
      match dict_lookup [(".md", H_custom "mdx")] k with
      | Some h => Some h
      | None => dict_lookup PREVIEW_HANDLERS k
      end.
Proof.
  apply (proj2 (show_file_preview_registry_unchanged (demo_env PNone) "notes.md" demo_site
                  (Some [(".md", H_custom "mdx")]) init_state) PREVIEW_HANDLERS).
  - vm_compute. reflexivity.
  - apply NoDup_singleton.
Defined.

(** ** The listing layer *)

Lemma filter_func_true pats f :
  filter_func pats f = Ok true ->
  exists s, path f = PStr s /\ existsb (fun pattern => fnmatch s pattern) pats = true.
Proof.
  unfold filter_func. destruct pats as [|p ps]; [discriminate|].
  destruct (path f) eqn:Hp; try discriminate. intros [= H]. eauto.
Qed.

Lemma filter_func_string pats f s :
  path f = PStr s -> filter_func pats f = Ok (existsb (fun pattern => fnmatch s pattern) pats).
Proof. intros Hp. unfold filter_func. destruct pats; [reflexivity|]. by rewrite Hp. Qed.

Lemma glob_filter_as_filter pats files :
  Forall (fun f => exists s, path f = PStr s) files ->
  glob_filter pats files = Ok (List.filter (path_matches pats) files).
Proof.
  induction 1 as [|f fs [s Hs] _ IH]; [reflexivity|].
  simpl. rewrite (filter_func_string _ _ _ Hs), IH. simpl.
  assert (path_matches pats f = existsb (fun pattern => fnmatch s pattern) pats) as ->
    by (unfold path_matches; by rewrite Hs).
  reflexivity.
Qed.

Lemma translate_then_filter_split E pats raw files :
  translate_all E raw = Ok files -> translate_then_filter E pats raw = glob_filter pats files.
Proof.
  revert files. induction raw as [|r rs IH]; intros files H; simpl in H.
  - by injection H as <-.
  - simpl. destruct (translate_storage_file E r) as [f|e]; [|discriminate]. simpl in H |- *.
    destruct (translate_all E rs) as [fs|e] eqn:Hrs; [|discriminate].
    injection H as <-. simpl. by rewrite (IH fs eq_refl).
Qed.

Lemma filter_sublist {A} (p : A -> bool) (l : list A) : List.filter p l `sublist_of` l.
Proof.
  induction l as [|x l IH]; simpl; [constructor|].
  destruct (p x); [by apply sublist_skip | by apply sublist_cons].
Qed.

Lemma path_matches_true pats f :
  path_matches pats f = true <->
  exists s pattern, path f = PStr s /\ In pattern pats /\ fnmatch s pattern = true.
Proof.
  unfold path_matches. destruct (path f) eqn:Hp;
    try (split; [discriminate | intros (? & ? & [=] & _)]).
  rewrite existsb_exists. split.
  - intros (pattern & Hin & Hm). eauto.
  - intros (s0 & pattern & [= <-] & Hin & Hm). eauto.
Qed.

Lemma translate_then_filter_In E pats raw files :
  translate_then_filter E pats raw = Ok files ->
  (forall f, In f files <->
     exists r, In r raw /\ translate_storage_file E r = Ok f /\ filter_func pats f = Ok true) /\
  (forall r, In r raw ->
     exists f k, translate_storage_file E r = Ok f /\ filter_func pats f = Ok k).
Proof.
  revert files. induction raw as [|r rs IH]; intros files H; simpl in H.
  - injection H as <-. split; [|contradiction].
    intros f. split; [contradiction | intros (? & [] & _)].
  - destruct (translate_storage_file E r) as [f0|e] eqn:Ht; [|discriminate]. simpl in H.
    destruct (filter_func pats f0) as [k|e] eqn:Hk; [|discriminate]. simpl in H.
    destruct (translate_then_filter E pats rs) as [fs|e] eqn:Hrs; [|discriminate]. simpl in H.
    injection H as <-. destruct (IH fs eq_refl) as [IHin IHtot]. split.
    + intros f. destruct k; simpl; rewrite IHin; split.
      * intros [<- | (r' & Hr' & Ht' & Hk')]; [exists r; auto | exists r'; auto].
      * intros (r' & [<- | Hr'] & Ht' & Hk').
        -- left. congruence.
        -- right. exists r'. auto.
      * intros (r' & Hr' & Ht' & Hk'). exists r'. auto.
      * intros (r' & [<- | Hr'] & Ht' & Hk').
        -- rewrite Ht in Ht'. injection Ht' as <-. congruence.
        -- exists r'. auto.
    + intros r' [<- | Hr'].
      * exists f0, k. auto.
      * by apply IHtot.
Qed.

Lemma gmatch_star_suffix ts s :
  gmatch (GStar :: ts) s = true -> exists s1 s2, s = (s1 ++ s2)%list /\ gmatch ts s2 = true.
Proof.
  induction s as [|c s IH]; intros H.
  - exists [], []. split; [reflexivity|]. simpl in H. by rewrite orb_false_r in H.
  - change ((gmatch ts (c :: s) || gmatch (GStar :: ts) s)%bool = true) in H.
    apply orb_true_iff in H as [H|H].
    + by exists [], (c :: s).
    + destruct (IH H) as (s1 & s2 & -> & H2). by exists (c :: s1), s2.
Qed.

Lemma gmatch_star_char p ts s :
  gmatch (GStar :: GChar p :: ts) s = true -> exists c, In c s /\ p c = true.
Proof.
  intros H. apply gmatch_star_suffix in H as (s1 & [|c s2] & -> & H); [discriminate|].
  simpl in H. apply andb_true_iff in H as [Hc _].
  exists c. split; [apply in_or_app; right; left; reflexivity | exact Hc].
Qed.

Lemma fn_translate_globstar_slash_star :
  fn_translate (String.length "**/*") (chars "**/*") =
  [GStar; GStar; GChar (Ascii.eqb "/"%char); GStar].
Proof. reflexivity. Qed.

Lemma fn_translate_star_slash_globstar :
  fn_translate (String.length "*/**") (chars "*/**") =
  [GStar; GChar (Ascii.eqb "/"%char); GStar; GStar].
Proof. reflexivity. Qed.

Lemma fnmatch_default_needs_slash s :
  fnmatch s "**/*" = true \/ fnmatch s "*/**" = true -> In "/"%char (chars s).
Proof.
  unfold fnmatch. rewrite fn_translate_globstar_slash_star, fn_translate_star_slash_globstar.
  intros [H|H].
  - apply gmatch_star_suffix in H as (s1 & s2 & -> & H).
    apply gmatch_star_char in H as (c & Hin & Hc).
    apply Ascii.eqb_eq in Hc as <-. apply in_or_app. by right.
  - apply gmatch_star_char in H as (c & Hin & Hc).
    by apply Ascii.eqb_eq in Hc as <-.
Qed.

(** C3: for a non-empty pattern list, the glob-filter stage keeps
    exactly the records whose path matches some pattern, in their
    original order; inside [Bucket.list] the stage sees the translated
    rows. *)
Theorem glob_filter_exact pats files :
  pats <> [] -> Forall (fun f => exists s, path f = PStr s) files ->
  glob_filter pats files = Ok (List.filter (path_matches pats) files) /\
  List.filter (path_matches pats) files `sublist_of` files /\
  (forall f, In f (List.filter (path_matches pats) files) <->
     In f files /\ exists s pattern, path f = PStr s /\ In pattern pats /\ fnmatch s pattern = true) /\
  (forall E raw, translate_all E raw = Ok files ->
     translate_then_filter E pats raw = Ok (List.filter (path_matches pats) files)).
Proof.
  intros _ Hs. split; [by apply glob_filter_as_filter|]. split; [apply filter_sublist|]. split.
  - intros f. rewrite filter_In, path_matches_true. reflexivity.
  - intros E raw Hraw. rewrite (translate_then_filter_split _ _ _ _ Hraw).
    by apply glob_filter_as_filter.
Qed.

(** C4 (the default patterns need a '/'): with [Bucket.list]'s default
    ["*/**"] or the widget's default ["**/*"], a record whose path has
    no '/' is dropped, and every listed record has a '/' in its path. *)
Theorem default_globs_drop_top_level :
  (forall f s, path f = PStr s -> ~ In "/"%char (chars s) ->
     glob_filter Bucket_list_default_globs [f] = Ok [] /\
     glob_filter (glob_patterns default_opts) [f] = Ok []) /\
  (forall E table b limit offset order_by files,
     (Bucket_list E table b Bucket_list_default_globs limit offset order_by = Ok files \/
      Bucket_list E table b (glob_patterns default_opts) limit offset order_by = Ok files) ->
     Forall has_slash files).
Proof.
  split.
  - intros f s Hp Hno.
    assert (H1 : fnmatch s "*/**" = false)
      by (destruct (fnmatch s "*/**") eqn:E; [|reflexivity];
          exfalso; apply Hno, fnmatch_default_needs_slash; by right).
    assert (H2 : fnmatch s "**/*" = false)
      by (destruct (fnmatch s "**/*") eqn:E; [|reflexivity];
          exfalso; apply Hno, fnmatch_default_needs_slash; by left).
    cbn [glob_filter]. rewrite !(filter_func_string _ _ _ Hp). simpl.
    rewrite H1, H2. split; reflexivity.
  - intros E table b limit offset order_by files Hl.
    apply List.Forall_forall. intros f Hf.
    assert (Hpat : exists pats, (pats = ["*/**"] \/ pats = ["**/*"]) /\
              Bucket_list E table b pats limit offset order_by = Ok files)
      by (destruct Hl as [Hl|Hl]; eexists; split; [left|exact Hl|right|exact Hl]; reflexivity).
    destruct Hpat as (pats & Hpats & Hl').
    unfold Bucket_list in Hl'.
    destruct (execute _ _ _) as [raw|e]; [|discriminate]. simpl in Hl'.
    destruct (translate_then_filter_In _ _ _ _ Hl') as [Hin _].
    destruct (proj1 (Hin f) Hf) as (r & _ & _ & Hk).
    apply filter_func_true in Hk as (s & Hp & Hm).
    exists s. split; [exact Hp|]. apply fnmatch_default_needs_slash.
    destruct Hpats as [Hq | Hq]; rewrite Hq in Hm; simpl in Hm; rewrite orb_false_r in Hm; auto.
Qed.

(** C5 (corrected: the row [Bucket.list] translates is the selected
    one, where PostgREST has put [metadata->size] under the key
    [size]): a selected row translates to its name, its size and its
    three timestamps each divided by 1000. *)
Theorem translate_storage_file_selected_row E o kvs tc tu ta dc du da :
  o_metadata o = PDict kvs ->
  o_created_at o = PStr tc -> o_updated_at o = PStr tu -> o_last_accessed_at o = PStr ta ->
  fromisoformat tc = Ok dc -> fromisoformat tu = Ok du -> fromisoformat ta = Ok da ->
  translate_storage_file E (select_row o) =
    Ok {| path := PStr (o_name o); size := dict_get_opt kvs "size";
          create_time := div1000 (timestamp E dc);
          update_time := div1000 (timestamp E du);
          access_time := div1000 (timestamp E da) |}.
Proof.
  intros Hm Hc Hu Ha Hdc Hdu Hda.
  unfold translate_storage_file, select_row, fromisoformat_py.
  rewrite Hm, Hc, Hu, Ha. cbn -[fromisoformat timestamp div1000].
  rewrite Hda. cbn -[fromisoformat timestamp div1000].
  rewrite Hdc. cbn -[fromisoformat timestamp div1000].
  rewrite Hdu. reflexivity.
Qed.

Example translate_scenario_times :
  match translate_storage_file (demo_env PNone) (select_row (demo_obj "bkt" "a/b.csv")) with
  | Ok f => (create_time f == 17040672 # 10)%Q /\ (update_time f == 17041536 # 10)%Q /\
            (access_time f == 1704240)%Q
  | Err _ => False
  end.
Proof. vm_compute. repeat split; reflexivity. Qed.

Lemma glob_filter_exact_witness :
  glob_filter ["*.csv"; "data/*"] [demo_file "report.csv"; demo_file "img/a.png"; demo_file "data/b"] =
  Ok (List.filter (path_matches ["*.csv"; "data/*"])
        [demo_file "report.csv"; demo_file "img/a.png"; demo_file "data/b"]).
Proof.
  apply (glob_filter_exact ["*.csv"; "data/*"]
           [demo_file "report.csv"; demo_file "img/a.png"; demo_file "data/b"]).
  - discriminate.
  - repeat constructor; eexists; reflexivity.
Defined.

Lemma default_globs_drop_top_level_witness :
  glob_filter Bucket_list_default_globs [demo_file "report.csv"] = Ok [] /\
  glob_filter (glob_patterns default_opts) [demo_file "report.csv"] = Ok [].
Proof.
  apply (proj1 default_globs_drop_top_level (demo_file "report.csv") "report.csv").
  - reflexivity.
  - intros H. vm_compute in H. repeat (destruct H as [H|H]; [discriminate H|]). exact H.
Defined.

Lemma translate_storage_file_selected_row_witness :
  translate_storage_file (demo_env PNone) (select_row (demo_obj "bkt" "a/b.csv")) =
  Ok {| path := PStr "a/b.csv"; size := PInt 42;
        create_time := div1000 (timestamp (demo_env PNone) (demo_dt 1));
        update_time := div1000 (timestamp (demo_env PNone) (demo_dt 2));
        access_time := div1000 (timestamp (demo_env PNone) (demo_dt 3)) |}.
Proof.
  apply (translate_storage_file_selected_row (demo_env PNone) (demo_obj "bkt" "a/b.csv")
           [("size", PInt 42)] "2024-01-01T00:00:00Z" "2024-01-02T00:00:00Z"
           "2024-01-03T00:00:00Z"); reflexivity.
Defined.

(** C5 counterexample: the row of the scenario, with [size] nested in
    [metadata], makes [translate_storage_file] raise [KeyError('size')]. *)
Lemma translate_storage_file_raw_row_keyerror :
  translate_storage_file (demo_env PNone) raw_scenario_row = Err (KeyError "size").
Proof. reflexivity. Qed.

(** ** [Bucket.exists] against [Bucket.list] *)

Lemma all_filters_snoc_name o fs v :
  all_filters o (fs ++ [FEq "name" v]) =
  let? b := all_filters o fs in Ok (b && String.eqb (o_name o) v).
Proof.
  induction fs as [|f fs IH]; simpl.
  - by rewrite andb_true_r.
  - rewrite IH. destruct (filt_holds o f) as [b|e]; simpl; [|reflexivity].
    destruct (all_filters o fs) as [b'|e]; simpl; [|reflexivity].
    by rewrite andb_assoc.
Qed.

Lemma filter_rows_snoc_name fs v t :
  filter_rows (fs ++ [FEq "name" v]) t =
  let? rows := filter_rows fs t in Ok (List.filter (fun o => String.eqb (o_name o) v) rows).
Proof.
  induction t as [|o t IH]; simpl; [reflexivity|].
  rewrite all_filters_snoc_name. destruct (all_filters o fs) as [b|e]; simpl; [|reflexivity].
  rewrite IH. destruct (filter_rows fs t) as [rows|e]; simpl; [|reflexivity].
  by destruct b.
Qed.

Lemma filter_rows_NoDup {K} (g : obj -> K) fs t rows :
  filter_rows fs t = Ok rows -> List.NoDup (map g t) ->
  List.NoDup (map g rows) /\ (forall o, In o rows -> In o t /\ all_filters o fs = Ok true).
Proof.
  revert rows. induction t as [|o t IH]; intros rows H Hnd; simpl in H.
  - injection H as <-. split; [constructor | contradiction].
  - destruct (all_filters o fs) as [b|e] eqn:Hb; [|discriminate]. simpl in H.
    destruct (filter_rows fs t) as [rest|e]; [|discriminate]. simpl in H.
    injection H as <-. simpl in Hnd. inversion Hnd as [|? ? Hnotin Hnd']; subst.
    destruct (IH rest eq_refl Hnd') as [Hnd_rest Hin_rest].
    destruct b.
    + split.
      * simpl. constructor; [|exact Hnd_rest].
        intros Hg. apply in_map_iff in Hg as (o' & Hgo & Ho').
        apply Hnotin, in_map_iff. exists o'. split; [exact Hgo | apply Hin_rest, Ho'].
      * intros o' [<- | Ho']; [by split; [left|] |].
        destruct (Hin_rest o' Ho'). split; [by right | assumption].
    + split; [exact Hnd_rest|].
      intros o' Ho'. destruct (Hin_rest o' Ho'). split; [by right | assumption].
Qed.

Lemma query_bucket_filter b :
  exists fs, q_filters (_query b) = FEq "bucket_id" (b_bucket_id b) :: fs.
Proof.
  unfold _query. destruct (b_path b), (b_extensions b); simpl; eexists; reflexivity.
Qed.

Lemma query_unlimited b :
  q_limit (_query b) = None /\ q_offset (_query b) = None /\ q_order (_query b) = None.
Proof. unfold _query. destruct (b_path b), (b_extensions b); simpl; auto. Qed.

Lemma execute_plain E table q :
  q_limit q = None -> q_offset q = None -> q_order q = None ->
  execute E table q = let? rows := filter_rows (q_filters q) table in Ok (map select_row rows).
Proof.
  intros Hl Ho Hord. unfold execute. rewrite Hord, Ho, Hl.
  by destruct (filter_rows (q_filters q) table).
Qed.

Lemma scoped_row_bucket b o :
  all_filters o (q_filters (_query b)) = Ok true -> o_bucket_id o = b_bucket_id b.
Proof.
  destruct (query_bucket_filter b) as [fs ->]. simpl.
  destruct (all_filters o fs) as [b'|e]; simpl; [|discriminate].
  intros [= H]. apply andb_true_iff in H as [H _]. by apply String.eqb_eq.
Qed.

Lemma translate_storage_file_path E r f :
  translate_storage_file E r = Ok f -> getitem r "name" = Ok (path f).
Proof.
  unfold translate_storage_file, res_bind. intros H.
  destruct (getitem r "name") as [p|e]; [|discriminate].
  repeat match type of H with
         | context [match ?x with Ok _ => _ | Err _ => _ end] => destruct x; [|discriminate]
         end.
  by injection H as <-.
Qed.

Lemma filter_name_at_most_one bid rows p :
  List.NoDup (map (fun o => (o_bucket_id o, o_name o)) rows) ->
  (forall o, In o rows -> o_bucket_id o = bid) ->
  List.length (List.filter (fun o => String.eqb (o_name o) p) rows) <= 1.
Proof.
  induction rows as [|o rows IH]; intros Hnd Hb; simpl; [lia|].
  simpl in Hnd. inversion Hnd as [|? ? Hnotin Hnd']; subst.
  assert (IH' := IH Hnd' (fun o' Ho' => Hb o' (or_intror Ho'))).
  destruct (String.eqb (o_name o) p) eqn:Hp; [|exact IH'].
  simpl. destruct (List.filter (fun o => String.eqb (o_name o) p) rows) as [|o' l] eqn:Hf;
    [simpl; lia|].
  exfalso. assert (Ho' : In o' (List.filter (fun o => String.eqb (o_name o) p) rows))
    by (rewrite Hf; left; reflexivity).
  apply filter_In in Ho' as [Ho' Hp'].
  apply Hnotin, in_map_iff. exists o'. split; [|exact Ho'].
  apply String.eqb_eq in Hp, Hp'.
  rewrite (Hb o' (or_intror Ho')), (Hb o (or_introl eq_refl)), Hp, Hp'. reflexivity.
Qed.

(** C2 (corrected: [exists] ignores the glob patterns): when a bucket
    holds at most one object per name, [exists(p)] returns true and [p]
    matches one of the patterns exactly when [list] with those
    patterns, and no limit, offset or ordering, returns a record with
    path [p]. *)
Theorem exists_iff_listed_and_matched E table b pats p files :
  List.NoDup (map (fun o => (o_bucket_id o, o_name o)) table) ->
  Bucket_list E table b pats None None None = Ok files ->
  (exists f, In f files /\ path f = PStr p) <->
  (Bucket_exists E table b (PStr p) = Ok true /\
   existsb (fun pattern => fnmatch p pattern) pats = true).
Proof.
  intros Hnd Hl. unfold Bucket_list in Hl. cbv zeta in Hl.
  rewrite execute_plain in Hl by reflexivity. simpl in Hl.
  destruct (filter_rows (q_filters (_query b)) table) as [rows|e] eqn:Hrows; [|discriminate].
  simpl in Hl.
  destruct (filter_rows_NoDup (fun o => (o_bucket_id o, o_name o)) _ _ _ Hrows Hnd)
    as [Hnd_rows Hin_rows].
  assert (Hlen := filter_name_at_most_one (b_bucket_id b) rows p Hnd_rows
                    (fun o Ho => scoped_row_bucket b o (proj2 (Hin_rows o Ho)))).
  destruct (translate_then_filter_In _ _ _ _ Hl) as [Hin Htot].
  destruct (query_unlimited b) as (Hq1 & Hq2 & Hq3).
  unfold Bucket_exists. rewrite execute_plain by assumption.
  cbn [q_filters add_filter py_str]. rewrite filter_rows_snoc_name, Hrows. simpl.
  remember (List.filter (fun o => String.eqb (o_name o) p) rows) as L eqn:HL.
  split.
  - intros (f & Hf & Hp).
    destruct (proj1 (Hin f) Hf) as (r & Hr & Ht & Hk).
    apply in_map_iff in Hr as (o & <- & Ho).
    assert (Hname := translate_storage_file_path _ _ _ Ht). simpl in Hname.
    rewrite Hp in Hname. injection Hname as Hname.
    rewrite (filter_func_string _ _ _ Hp) in Hk. injection Hk as Hk.
    split; [|exact Hk].
    assert (HoL : In o L) by (subst L; apply filter_In; split; [exact Ho|]; by apply String.eqb_eq).
    destruct L as [|o1 [|o2 L']]; simpl in Hlen; [contradiction | reflexivity | lia].
  - intros [Hex Hm].
    destruct L as [|o [|o2 L']]; try discriminate.
    assert (Ho : In o (List.filter (fun o => String.eqb (o_name o) p) rows))
      by (rewrite <- HL; left; reflexivity).
    apply filter_In in Ho as [Ho Hp]. apply String.eqb_eq in Hp.
    destruct (Htot (select_row o) (in_map _ _ _ Ho)) as (f & k & Ht & Hk).
    assert (Hname := translate_storage_file_path _ _ _ Ht). simpl in Hname.
    injection Hname as Hname. rewrite Hp in Hname.
    assert (Hk' : filter_func pats f = Ok true)
      by (rewrite (filter_func_string _ _ _ (eq_sym Hname)); by rewrite Hm).
    exists f. split; [|by symmetry].
    apply Hin. exists (select_row o). split; [apply in_map, Ho|]. split; [exact Ht | exact Hk'].
Qed.

Lemma exists_iff_listed_and_matched_witness :
  (exists f, In f demo_listing /\ path f = PStr "data/a.csv") <->
  (Bucket_exists (demo_env PNone) demo_table demo_bucket (PStr "data/a.csv") = Ok true /\
   existsb (fun pattern => fnmatch "data/a.csv" pattern) ["**/*"] = true).
Proof.
  apply (exists_iff_listed_and_matched (demo_env PNone) demo_table demo_bucket ["**/*"]
           "data/a.csv" demo_listing).
  - repeat constructor; intros H; vm_compute in H;
      repeat (destruct H as [H|H]; [discriminate H|]); exact H.
  - vm_compute. reflexivity.
Defined.

(** C2 counterexample: "report.csv" exists in bucket "bkt", but listing
    the bucket with the widget's default patterns does not return it. *)
Lemma exists_without_listing :
  Bucket_exists (demo_env PNone) demo_table demo_bucket (PStr "report.csv") = Ok true /\
  (let? fs := Bucket_list (demo_env PNone) demo_table demo_bucket ["**/*"] None None None in
   Ok (map path fs)) = Ok [PStr "data/a.csv"].
Proof. split; vm_compute; reflexivity. Qed.

(** ** The widget *)

Lemma st_browser_not_selected E table supabase bucket_id p o s files :
  Bucket_list E table (Bucket_init supabase bucket_id p (extentions o))
    (glob_patterns o) (limit o) (offset o) (sort o) = Ok files ->
  select_file_check (component E (mk_component_args files o
                       (Bucket_init supabase bucket_id p (extentions o))))
    (select_filetype_ignores o) = Ok false ->
  st_supabase_storage_browser E table supabase bucket_id p o s =
    ({| heap := heap s; ui := (ui s ++ top_ui o)%list |},
     Ok (component E (mk_component_args files o (Bucket_init supabase bucket_id p (extentions o))))).
Proof.
  intros Hl Hsel. run_browser Hl; rewrite Hsel; cbv beta iota; simpl;
    rewrite ?app_nil_r; [reflexivity|]. by destruct s.
Qed.

Lemma st_browser_check_error E table supabase bucket_id p o s files e :
  Bucket_list E table (Bucket_init supabase bucket_id p (extentions o))
    (glob_patterns o) (limit o) (offset o) (sort o) = Ok files ->
  select_file_check (component E (mk_component_args files o
                       (Bucket_init supabase bucket_id p (extentions o))))
    (select_filetype_ignores o) = Err e ->
  snd (st_supabase_storage_browser E table supabase bucket_id p o s) = Err e.
Proof. intros Hl Hsel. run_browser Hl; rewrite Hsel; reflexivity. Qed.

Lemma st_browser_target_error E table supabase bucket_id p o s files e :
  Bucket_list E table (Bucket_init supabase bucket_id p (extentions o))
    (glob_patterns o) (limit o) (offset o) (sort o) = Ok files ->
  select_file_check (component E (mk_component_args files o
                       (Bucket_init supabase bucket_id p (extentions o))))
    (select_filetype_ignores o) = Ok true ->
  getitem (component E (mk_component_args files o
             (Bucket_init supabase bucket_id p (extentions o)))) "target" = Err e ->
  snd (st_supabase_storage_browser E table supabase bucket_id p o s) = Err e.
Proof. intros Hl Hsel Ht. run_browser Hl; rewrite Hsel; cbv beta iota; rewrite Ht; reflexivity. Qed.

Lemma st_browser_path_error E table supabase bucket_id p o s files tgt e :
  Bucket_list E table (Bucket_init supabase bucket_id p (extentions o))
    (glob_patterns o) (limit o) (offset o) (sort o) = Ok files ->
  select_file_check (component E (mk_component_args files o
                       (Bucket_init supabase bucket_id p (extentions o))))
    (select_filetype_ignores o) = Ok true ->
  getitem (component E (mk_component_args files o
             (Bucket_init supabase bucket_id p (extentions o)))) "target" = Ok tgt ->
  getitem tgt "path" = Err e ->
  snd (st_supabase_storage_browser E table supabase bucket_id p o s) = Err e.
Proof.
  intros Hl Hsel Ht Hp. run_browser Hl; rewrite Hsel; cbv beta iota; rewrite Ht; cbv beta iota;
    rewrite Hp; reflexivity.
Qed.

Lemma select_file_check_other ev ig :
  (forall kvs, ev <> PDict kvs) \/
  (exists kvs, ev = PDict kvs /\ dict_get_opt kvs "type" <> PStr "SELECT_FILE") ->
  select_file_check ev ig = Ok false.
Proof.
  intros [Hnd | (kvs & -> & Hty)].
  - destruct ev; try reflexivity. exfalso. by eapply Hnd.
  - simpl. destruct (dict_get_opt kvs "type") as [| | |t| |] eqn:Ht; try reflexivity.
    destruct (String.eqb t "SELECT_FILE") eqn:He; [|reflexivity].
    apply String.eqb_eq in He. subst t. contradiction.
Qed.

Lemma select_file_check_select kvs ig :
  dict_get_opt kvs "type" = PStr "SELECT_FILE" ->
  select_file_check (PDict kvs) ig =
  let? x := ignored_suffix (PDict kvs) (match ig with Some l => l | None => [] end) in Ok (negb x).
Proof. intros Ht. simpl. by rewrite Ht. Qed.

(** C9: a selected file that [exists] no longer finds gives a warning
    and the event itself back; the heap is untouched and nothing is
    rendered after the warning: no expander and no preview. *)
Theorem missing_selection_warns E table supabase bucket_id p o s files tgt fp :
  let b := Bucket_init supabase bucket_id p (extentions o) in
  Bucket_list E table b (glob_patterns o) (limit o) (offset o) (sort o) = Ok files ->
  select_file_check (component E (mk_component_args files o b)) (select_filetype_ignores o) = Ok true ->
  getitem (component E (mk_component_args files o b)) "target" = Ok tgt ->
  getitem tgt "path" = Ok fp ->
  Bucket_exists E table b fp = Ok false ->
  st_supabase_storage_browser E table supabase bucket_id p o s =
    ({| heap := heap s;
        ui := (ui s ++ top_ui o ++ [UWarning ("File " ++ py_str fp ++ " not found")])%list |},
     Ok (component E (mk_component_args files o b))).
Proof.
  intros b Hl Hsel Ht Hp Hex. subst b.
  run_browser Hl;
  rewrite Hsel; cbv beta iota; rewrite Ht; cbv beta iota; rewrite Hp; cbv beta iota;
  rewrite Hex; cbv beta iota; simpl; rewrite ?app_nil_r, <- ?app_assoc; reflexivity.
Qed.

Lemma missing_selection_warns_witness :
  st_supabase_storage_browser (demo_env (select_event "gone.csv")) demo_table demo_client "bkt"
    None default_opts init_state =
  ({| heap := heap init_state;
      ui := (ui init_state ++ top_ui default_opts ++
             [UWarning ("File " ++ py_str (PStr "gone.csv") ++ " not found")])%list |},
   Ok (component (demo_env (select_event "gone.csv"))
         (mk_component_args demo_listing default_opts
            (Bucket_init demo_client "bkt" None (extentions default_opts))))).
Proof.
  apply (missing_selection_warns (demo_env (select_event "gone.csv")) demo_table demo_client "bkt"
           None default_opts init_state demo_listing (PDict [("path", PStr "gone.csv")])
           (PStr "gone.csv")); vm_compute; reflexivity.
Defined.

(** C10 (corrected: with no ignored suffixes the ignore filter reads
    nothing, and the KeyError comes from [event["target"]] or
    [file['path']] after it): an event that is not a [SELECT_FILE] dict
    is returned unexamined; a [SELECT_FILE] dict without "target", or
    whose target has no "path", raises that KeyError out of the widget,
    and from the ignore filter itself when the ignore list is
    non-empty. *)
Theorem select_file_event_keys E table supabase bucket_id p o s files :
  let b := Bucket_init supabase bucket_id p (extentions o) in
  Bucket_list E table b (glob_patterns o) (limit o) (offset o) (sort o) = Ok files ->
  let ev := component E (mk_component_args files o b) in
  ((forall kvs, ev <> PDict kvs) \/
   (exists kvs, ev = PDict kvs /\ dict_get_opt kvs "type" <> PStr "SELECT_FILE") ->
   st_supabase_storage_browser E table supabase bucket_id p o s =
     ({| heap := heap s; ui := (ui s ++ top_ui o)%list |}, Ok ev)) /\
  (forall kvs, ev = PDict kvs -> dict_get_opt kvs "type" = PStr "SELECT_FILE" ->
   assoc_get kvs "target" = None ->
   snd (st_supabase_storage_browser E table supabase bucket_id p o s) = Err (KeyError "target") /\
   (forall ft fts, select_filetype_ignores o = Some (ft :: fts) ->
    select_file_check ev (select_filetype_ignores o) = Err (KeyError "target"))) /\
  (forall kvs tkvs, ev = PDict kvs -> dict_get_opt kvs "type" = PStr "SELECT_FILE" ->
   assoc_get kvs "target" = Some (PDict tkvs) -> assoc_get tkvs "path" = None ->
   snd (st_supabase_storage_browser E table supabase bucket_id p o s) = Err (KeyError "path") /\
   (forall ft fts, select_filetype_ignores o = Some (ft :: fts) ->
    select_file_check ev (select_filetype_ignores o) = Err (KeyError "path"))).
Proof.
  intros b Hl ev. subst b ev. split; [|split].
  - intros Hother. apply st_browser_not_selected with (1 := Hl).
    by apply select_file_check_other.
  - intros kvs Hev Hty Htg.
    assert (Hg : getitem (PDict kvs) "target" = Err (KeyError "target")) by (simpl; by rewrite Htg).
    assert (Hchk : forall ft fts, select_filetype_ignores o = Some (ft :: fts) ->
              select_file_check (PDict kvs) (select_filetype_ignores o) = Err (KeyError "target"))
      by (intros ft fts Hig; rewrite select_file_check_select, Hig by exact Hty;
          cbn [ignored_suffix]; by rewrite Hg).
    rewrite Hev. split; [|exact Hchk].
    destruct (select_filetype_ignores o) as [[|ft fts]|] eqn:Hig.
    + apply st_browser_target_error with (1 := Hl); rewrite Hev, ?Hig; [|exact Hg].
      by rewrite select_file_check_select.
    + apply st_browser_check_error with (1 := Hl). rewrite Hev, Hig. by apply (Hchk ft fts).
    + apply st_browser_target_error with (1 := Hl); rewrite Hev, ?Hig; [|exact Hg].
      by rewrite select_file_check_select.
  - intros kvs tkvs Hev Hty Htg Hpath.
    assert (Hg : getitem (PDict kvs) "target" = Ok (PDict tkvs)) by (simpl; by rewrite Htg).
    assert (Hp : getitem (PDict tkvs) "path" = Err (KeyError "path")) by (simpl; by rewrite Hpath).
    assert (Hchk : forall ft fts, select_filetype_ignores o = Some (ft :: fts) ->
              select_file_check (PDict kvs) (select_filetype_ignores o) = Err (KeyError "path"))
      by (intros ft fts Hig; rewrite select_file_check_select, Hig by exact Hty;
          cbn [ignored_suffix]; rewrite Hg; cbn [res_bind]; by rewrite Hp).
    rewrite Hev. split; [|exact Hchk].
    destruct (select_filetype_ignores o) as [[|ft fts]|] eqn:Hig.
    + apply st_browser_path_error with (1 := Hl) (tgt := PDict tkvs);
        [rewrite Hev, Hig; by rewrite select_file_check_select | rewrite Hev; exact Hg | exact Hp].
    + apply st_browser_check_error with (1 := Hl). rewrite Hev, Hig. by apply (Hchk ft fts).
    + apply st_browser_path_error with (1 := Hl) (tgt := PDict tkvs);
        [rewrite Hev, Hig; by rewrite select_file_check_select | rewrite Hev; exact Hg | exact Hp].
Qed.

Lemma select_file_event_keys_witness :
  snd (st_supabase_storage_browser (demo_env (PDict [("type", PStr "SELECT_FILE")])) demo_table
         demo_client "bkt" None default_opts init_state) = Err (KeyError "target").
Proof.
  refine (proj1 (proj1 (proj2 (select_file_event_keys
            (demo_env (PDict [("type", PStr "SELECT_FILE")])) demo_table demo_client "bkt" None
            default_opts init_state demo_listing _)) [("type", PStr "SELECT_FILE")] _ _ _));
    vm_compute; reflexivity.
Defined.

(** C10 counterexample: with the default [select_filetype_ignores=None]
    a [SELECT_FILE] event without "target" passes the ignore filter
    without an error; the KeyError is raised afterwards, by
    [event["target"]]. *)
Lemma select_file_missing_target_passes_filter :
  select_file_check (PDict [("type", PStr "SELECT_FILE")]) (select_filetype_ignores default_opts) =
    Ok true /\
  snd (st_supabase_storage_browser (demo_env (PDict [("type", PStr "SELECT_FILE")])) demo_table
         demo_client "bkt" None default_opts init_state) = Err (KeyError "target").
Proof. split; vm_compute; reflexivity. Qed.

(* ================================================================== *)
(** * Further properties of the module *)

(** ** Literal tokens, LIKE patterns and the scope of [_query] *)

Lemma chars_app a b : chars (a ++ b) = (chars a ++ chars b)%list.
Proof. unfold chars. induction a as [|c a IH]; simpl; [reflexivity|]. by rewrite IH. Qed.

Lemma chars_inj a b : chars a = chars b -> a = b.
Proof.
  intros H. rewrite <- (string_of_list_ascii_of_string a), <- (string_of_list_ascii_of_string b).
  unfold chars in H. by rewrite H.
Qed.

Lemma length_chars s : List.length (chars s) = String.length s.
Proof. unfold chars. induction s as [|c s IH]; simpl; [reflexivity|]. by rewrite IH. Qed.

Lemma gmatch_nil_iff x : gmatch [] x = true <-> x = [].
Proof. destruct x; simpl; split; congruence. Qed.

Lemma gmatch_lit_app l ts x :
  gmatch (lit_toks l ++ ts) x = true <-> exists x', x = (l ++ x')%list /\ gmatch ts x' = true.
Proof.
  revert x. induction l as [|c l IH]; intros x; simpl.
  - split; [intros H; by exists x | by intros (x' & -> & H)].
  - destruct x as [|d x].
    + split; [discriminate | intros (x' & [=] & _)].
    + rewrite andb_true_iff, IH. split.
      * intros [Hc (x' & -> & H)]. apply Ascii.eqb_eq in Hc as <-. by exists x'.
      * intros (x' & [= <- ->] & H). split; [apply Ascii.eqb_refl | by exists x'].
Qed.

Lemma gmatch_lit l x : gmatch (lit_toks l) x = true <-> x = l.
Proof.
  rewrite <- (app_nil_r (lit_toks l)), gmatch_lit_app. split.
  - intros (x' & -> & H). apply gmatch_nil_iff in H as ->. by rewrite app_nil_r.
  - intros ->. exists []. by rewrite app_nil_r.
Qed.

Lemma gmatch_star_here ts x : gmatch ts x = true -> gmatch (GStar :: ts) x = true.
Proof.
  intros H. destruct x as [|c x].
  - simpl. by rewrite H.
  - change ((gmatch ts (c :: x) || gmatch (GStar :: ts) x)%bool = true). by rewrite H.
Qed.

Lemma gmatch_star_skip ts c x : gmatch (GStar :: ts) x = true -> gmatch (GStar :: ts) (c :: x) = true.
Proof.
  intros H. change ((gmatch ts (c :: x) || gmatch (GStar :: ts) x)%bool = true).
  by rewrite H, orb_true_r.
Qed.

Lemma gmatch_star_iff ts x :
  gmatch (GStar :: ts) x = true <-> exists x1 x2, x = (x1 ++ x2)%list /\ gmatch ts x2 = true.
Proof.
  split; [apply gmatch_star_suffix|].
  intros (x1 & x2 & -> & H). induction x1 as [|c x1 IH]; simpl.
  - by apply gmatch_star_here.
  - by apply gmatch_star_skip.
Qed.

Lemma gmatch_star_any x : gmatch [GStar] x = true.
Proof. apply gmatch_star_iff. exists x, []. by rewrite app_nil_r. Qed.













(** ** [Bucket.exists] *)






(** ** [Bucket.list] *)

Lemma execute_limit E table q n raw :
  q_limit q = Some n -> execute E table q = Ok raw -> List.length raw <= n.
Proof.
  intros Hl. unfold execute. cbv zeta.
  destruct (filter_rows (q_filters q) table) as [rows|e]; cbn [res_bind]; [|discriminate].
  destruct (match q_order q with Some o => apply_order E o rows | None => Ok rows end)
    as [rows'|e]; cbn [res_bind]; [|discriminate].
  rewrite Hl. intros [= <-]. rewrite length_map, length_firstn. lia.
Qed.

Lemma execute_select E table q raw :
  execute E table q = Ok raw -> exists rows, raw = map select_row rows.
Proof.
  unfold execute. cbv zeta.
  destruct (filter_rows (q_filters q) table) as [rows|e]; cbn [res_bind]; [|discriminate].
  destruct (match q_order q with Some o => apply_order E o rows | None => Ok rows end)
    as [rows'|e]; cbn [res_bind]; [|discriminate].
  intros [= <-]. eexists. reflexivity.
Qed.

Lemma translate_then_filter_length E pats raw files :
  translate_then_filter E pats raw = Ok files -> List.length files <= List.length raw.
Proof.
  revert files. induction raw as [|r rs IH]; intros files; simpl.
  - intros [= <-]. simpl. lia.
  - destruct (translate_storage_file E r) as [f|e]; cbn [res_bind]; [|discriminate].
    destruct (filter_func pats f) as [k|e]; cbn [res_bind]; [|discriminate].
    destruct (translate_then_filter E pats rs) as [rest|e]; cbn [res_bind]; [|discriminate].
    intros [= <-]. specialize (IH rest eq_refl). destruct k; simpl; lia.
Qed.

(** [list(limit=n)] returns at most [n] records, whatever the patterns,
    the offset and the ordering. *)
Theorem list_limit_bound E table b pats n offset order files :
  Bucket_list E table b pats (Some n) offset order = Ok files -> List.length files <= n.
Proof.
  unfold Bucket_list. cbv zeta.
  destruct (execute E table _) as [raw|e] eqn:He; cbn [res_bind]; [|discriminate].
  intros Ht. apply translate_then_filter_length in Ht.
  apply (execute_limit _ _ _ n) in He; [lia | reflexivity].
Qed.

Lemma list_limit_bound_witness :
  Bucket_list (demo_env PNone) demo_table demo_bucket ["**/*"] (Some 2) None None =
    Ok demo_listing /\
  List.length demo_listing <= 2.
Proof.
  assert (H : Bucket_list (demo_env PNone) demo_table demo_bucket ["**/*"] (Some 2) None None =
              Ok demo_listing) by (vm_compute; reflexivity).
  split; [exact H | exact (list_limit_bound _ _ _ _ _ _ _ _ H)].
Defined.

Lemma translate_then_filter_error E pats raw r e :
  In r raw -> translate_storage_file E r = Err e ->
  exists e', translate_then_filter E pats raw = Err e'.
Proof.
  induction raw as [|r0 rs IH]; intros Hin Ht; [destruct Hin|].
  cbn [translate_then_filter].
  destruct Hin as [<-|Hin].
  - rewrite Ht. cbn [res_bind]. by exists e.
  - destruct (translate_storage_file E r0) as [f|e0]; cbn [res_bind]; [|by exists e0].
    destruct (filter_func pats f) as [k|e0]; cbn [res_bind]; [|by exists e0].
    destruct (IH Hin Ht) as [e' He']. rewrite He'. cbn [res_bind]. by exists e'.
Qed.

(** A row of the fetched page that does not translate (a timestamp
    that is not an ISO-8601 string, a missing column) makes [list]
    raise, whatever the patterns: the lazy [map] translates every row
    before [filter_func] can drop it, even for an empty pattern tuple
    that keeps nothing. *)
Theorem list_translate_error_escapes E table b pats limit offset order raw r e :
  execute E table {| q_filters := q_filters (_query b); q_limit := limit; q_offset := offset;
                     q_order := if order_truthy order then order else None |} = Ok raw ->
  In r raw -> translate_storage_file E r = Err e ->
  exists e', Bucket_list E table b pats limit offset order = Err e'.
Proof.
  intros He Hin Ht. unfold Bucket_list. cbv zeta. rewrite He. cbn [res_bind].
  exact (translate_then_filter_error E pats raw r e Hin Ht).
Qed.

Lemma list_translate_error_escapes_witness :
  exists e', Bucket_list (demo_env PNone) [bad_obj] demo_bucket [] None None None = Err e'.
Proof.
  apply (list_translate_error_escapes (demo_env PNone) [bad_obj] demo_bucket [] None None None
           [select_row bad_obj] (select_row bad_obj) ValueError).
  - vm_compute. reflexivity.
  - left. reflexivity.
  - vm_compute. reflexivity.
Defined.

Lemma fnmatch_star s : fnmatch s "*" = true.
Proof.
  unfold fnmatch. change (fn_translate (String.length "*") (chars "*")) with [GStar].
  apply gmatch_star_any.
Qed.

Lemma translate_then_filter_star E pats raw :
  In "*" pats -> (forall r, In r raw -> exists s, getitem r "name" = Ok (PStr s)) ->
  translate_then_filter E pats raw = translate_all E raw.
Proof.
  intros Hs. induction raw as [|r rs IH]; intros Hn; cbn [translate_then_filter translate_all];
    [reflexivity|].
  destruct (translate_storage_file E r) as [f|e] eqn:Ht; cbn [res_bind]; [|reflexivity].
  destruct (Hn r (or_introl eq_refl)) as [s Hs'].
  apply translate_storage_file_path in Ht. rewrite Hs' in Ht. injection Ht as Ht.
  rewrite (filter_func_string pats f s (eq_sym Ht)).
  assert (Hm : existsb (fun pattern => fnmatch s pattern) pats = true)
    by (apply existsb_exists; exists "*"; split; [exact Hs | apply fnmatch_star]).
  rewrite Hm. cbn [res_bind].
  rewrite IH by (intros r' Hr'; apply Hn; right; exact Hr'). reflexivity.
Qed.

(** With "*" among the patterns the glob stage drops nothing: [list]
    returns every row of the fetched page, translated, in page order. *)
Theorem list_star_keeps_all E table b pats limit offset order :
  In "*" pats ->
  Bucket_list E table b pats limit offset order =
  let? raw := execute E table {| q_filters := q_filters (_query b); q_limit := limit;
                                 q_offset := offset;
                                 q_order := if order_truthy order then order else None |} in
  translate_all E raw.
Proof.
  intros Hs. unfold Bucket_list. cbv zeta.
  destruct (execute E table _) as [raw|e] eqn:He; cbn [res_bind]; [|reflexivity].
  destruct (execute_select _ _ _ _ He) as (rows & ->).
  apply translate_then_filter_star; [exact Hs|].
  intros r Hr. apply in_map_iff in Hr as (o & <- & _). eexists. reflexivity.
Qed.

Lemma list_star_keeps_all_witness :
  Bucket_list (demo_env PNone) demo_table demo_bucket ["*"] None None None =
  let? raw := execute (demo_env PNone) demo_table
                {| q_filters := q_filters (_query demo_bucket); q_limit := None;
                   q_offset := None; q_order := if order_truthy None then None else None |} in
  translate_all (demo_env PNone) raw.
Proof. apply list_star_keeps_all. left. reflexivity. Defined.

(** ** Exact globs and the selection check *)

Lemma fn_translate_plain fuel l :
  List.length l <= fuel ->
  forallb (fun c => negb (Ascii.eqb c "*"%char || Ascii.eqb c "?"%char || Ascii.eqb c "["%char)) l
    = true ->
  fn_translate fuel l = lit_toks l.
Proof.
  unfold lit_toks. revert fuel. induction l as [|c l IH]; intros [|fuel] Hlen H;
    cbn [List.length] in Hlen; try lia; [reflexivity|reflexivity|].
  cbn [forallb] in H. apply andb_true_iff in H as [Hc H].
  cbn [fn_translate map].
  destruct (Ascii.eqb c "*"%char), (Ascii.eqb c "?"%char), (Ascii.eqb c "["%char);
    try discriminate Hc.
  rewrite IH; [reflexivity | lia | exact H].
Qed.

(** A pattern without "*", "?" or "[" matches exactly the path equal
    to it. *)
Theorem fnmatch_plain_exact s pat :
  fn_plain pat = true -> fnmatch s pat = true <-> s = pat.
Proof.
  intros H. unfold fnmatch.
  rewrite fn_translate_plain; [| rewrite length_chars; lia | exact H].
  rewrite gmatch_lit. split; [apply chars_inj | intros ->; reflexivity].
Qed.

Lemma fnmatch_plain_exact_witness :
  fn_plain "data/a.csv" = true /\
  (fnmatch "data/a.csv" "data/a.csv" = true <-> "data/a.csv" = "data/a.csv").
Proof.
  split; [reflexivity|]. apply fnmatch_plain_exact. reflexivity.
Defined.

Lemma ignored_suffix_string ev t s fts :
  getitem ev "target" = Ok t -> getitem t "path" = Ok (PStr s) ->
  ignored_suffix ev fts = Ok (existsb (fun ft => str_endswith s ft) fts).
Proof.
  intros H1 H2. induction fts as [|ft fts IH]; cbn [ignored_suffix existsb]; [reflexivity|].
  rewrite H1. cbn [res_bind]. rewrite H2. cbn [res_bind].
  destruct (str_endswith s ft); [reflexivity | exact IH].
Qed.

(** On a [SELECT_FILE] event whose target path is a string, the
    selection is handled exactly when the path ends with none of the
    suffixes of [select_filetype_ignores]; the check never raises. *)
Theorem select_file_check_suffixes kvs t s ig :
  dict_get_opt kvs "type" = PStr "SELECT_FILE" ->
  getitem (PDict kvs) "target" = Ok t -> getitem t "path" = Ok (PStr s) ->
  select_file_check (PDict kvs) ig =
  Ok (negb (existsb (fun ft => str_endswith s ft) (match ig with Some l => l | None => [] end))).
Proof.
  intros Hty H1 H2. rewrite select_file_check_select by exact Hty.
  rewrite (ignored_suffix_string _ _ _ _ H1 H2). reflexivity.
Qed.

Lemma select_file_check_suffixes_witness :
  select_file_check (select_event "data/a.csv") (Some [".csv"]) =
  Ok (negb (existsb (fun ft => str_endswith "data/a.csv" ft) [".csv"])).
Proof.
  apply (select_file_check_suffixes _ (PDict [("path", PStr "data/a.csv")]));
    reflexivity.
Defined.

(** ** The widget *)

(** Whenever the widget returns, it returns the event the UI bundle
    produced for the listing of the bucket, unchanged. *)
Theorem st_browser_returns_event E table supabase bucket_id p o s s' v :
  st_supabase_storage_browser E table supabase bucket_id p o s = (s', Ok v) ->
  exists files,
    Bucket_list E table (Bucket_init supabase bucket_id p (extentions o))
      (glob_patterns o) (limit o) (offset o) (sort o) = Ok files /\
    v = component E (mk_component_args files o (Bucket_init supabase bucket_id p (extentions o))).
Proof.
  intros H. unfold st_supabase_storage_browser, mbind, lift_res, emit, mret in H. cbv zeta in H.
  split_res H.
  all: inversion H; subst; eexists; split; reflexivity.
Qed.

Lemma st_browser_returns_event_witness :
  exists files,
    Bucket_list (demo_env (select_event "data/a.csv")) demo_table
      (Bucket_init demo_client "bkt" None (extentions default_opts))
      (glob_patterns default_opts) (limit default_opts) (offset default_opts)
      (sort default_opts) = Ok files /\
    select_event "data/a.csv" =
    component (demo_env (select_event "data/a.csv"))
      (mk_component_args files default_opts
         (Bucket_init demo_client "bkt" None (extentions default_opts))).
Proof.
  apply (st_browser_returns_event (demo_env (select_event "data/a.csv")) demo_table demo_client
           "bkt" None default_opts init_state
           (fst (st_supabase_storage_browser (demo_env (select_event "data/a.csv")) demo_table
                   demo_client "bkt" None default_opts init_state))).
  vm_compute. reflexivity.
Defined.

Lemma show_file_preview_py_registry E tp site ov s :
  heap (fst (show_file_preview_py E tp site ov s)) !! PREVIEW_HANDLERS_loc =
  heap s !! PREVIEW_HANDLERS_loc.
Proof.
  destruct tp as [| | |s0| |]; try reflexivity. unfold show_file_preview_py.
  destruct (heap s !! PREVIEW_HANDLERS_loc) as [reg|] eqn:Hreg.
  - rewrite (show_file_preview_unfold _ _ _ _ _ reg Hreg), dispatch_heap. simpl.
    destruct (fresh_not_registry s reg Hreg) as [Hne _].
    rewrite lookup_insert_ne by congruence. exact Hreg.
  - rewrite (show_file_preview_unfold_none E s0 site ov s Hreg). exact Hreg.
Qed.

(** A run of the widget, returning or raising, leaves the global
    [PREVIEW_HANDLERS] object as it found it. *)
Theorem st_browser_registry_unchanged E table supabase bucket_id p o s :
  heap (fst (st_supabase_storage_browser E table supabase bucket_id p o s)) !! PREVIEW_HANDLERS_loc =
  heap s !! PREVIEW_HANDLERS_loc.
Proof.
  destruct (st_supabase_storage_browser E table supabase bucket_id p o s) as [s' r] eqn:H.
  cbn [fst]. unfold st_supabase_storage_browser, mbind, lift_res, emit, mret in H. cbv zeta in H.
  destruct (show_preview o && show_preview_top o); cbv beta iota in H; split_res H.
  all: try match goal with
       | Hx : show_file_preview_py ?a ?b ?c ?d ?st = _ |- _ =>
           pose proof (show_file_preview_py_registry a b c d st) as Hr; rewrite Hx in Hr;
           cbn [fst] in Hr
       end.
  all: inj_pairs; cbn [heap] in *; congruence.
Qed.



(** ** The content-sniffing fallback *)

(** For an extension with no handler in the merged map, once the bytes
    are fetched the preview returns normally and writes the container
    and one element: the image when the content is an image, else the
    video (by URL) or the audio with the sniffed MIME type, else the
    notice naming the extension. *)
Theorem show_file_preview_sniff E p site ov s reg c :
  heap s !! PREVIEW_HANDLERS_loc = Some reg ->
  dict_lookup (dict_update reg (or_empty ov)) (splitext_ext p) = None ->
  http_get_content E (preview_url E site p) = Ok c ->
  snd (show_file_preview E p site ov s) = Ok tt /\
  ui (fst (show_file_preview E p site ov s)) =
    (ui s ++ [UContainer;
              if image_match E c then UImage c
              else match video_match E c with
                   | Some m => UVideo (preview_url E site p) m
                   | None =>
                       match audio_match E c with
                       | Some m => UAudio c m
                       | None => UInfo ("No preview available for " ++ splitext_ext p)
                       end
                   end])%list.
Proof.
  intros Hreg Hnone Hc.
  rewrite (show_file_preview_unfold _ _ _ _ _ reg Hreg), dispatch_fallback by exact Hnone.
  unfold sniff_and_render, mbind, lift_res. rewrite Hc. cbv beta iota.
  destruct (image_match E c); [|destruct (video_match E c); [|destruct (audio_match E c)]];
    unfold emit; cbn [fst snd ui]; rewrite <- app_assoc; split; reflexivity.
Qed.

Lemma show_file_preview_sniff_witness :
  snd (show_file_preview (demo_env PNone) "photo.png" demo_site None init_state) = Ok tt /\
  ui (fst (show_file_preview (demo_env PNone) "photo.png" demo_site None init_state)) =
    (ui init_state ++ [UContainer;
              if image_match (demo_env PNone) png_magic then UImage png_magic
              else match video_match (demo_env PNone) png_magic with
                   | Some m => UVideo (preview_url (demo_env PNone) demo_site "photo.png") m
                   | None =>
                       match audio_match (demo_env PNone) png_magic with
                       | Some m => UAudio png_magic m
                       | None => UInfo ("No preview available for " ++ splitext_ext "photo.png")
                       end
                   end])%list.
Proof.
  apply (show_file_preview_sniff _ _ _ _ _ PREVIEW_HANDLERS); vm_compute; reflexivity.
Defined.

(** ** _do_pdf_preview *)

Lemma in_replace_char x c r l :
  In x (replace_char c r l) -> (In x l /\ x <> c) \/ In x r.
Proof.
  unfold replace_char. rewrite in_flat_map. intros (y & Hy & Hx).
  destruct (Ascii.eqb y c) eqn:Hyc; [by right|].
  destruct Hx as [<-|[]]. left. split; [exact Hy|].
  intros ->. by rewrite Ascii.eqb_refl in Hyc.
Qed.

Lemma not_in_replace_same c r l : ~ In c r -> ~ In c (replace_char c r l).
Proof. intros Hr Hin. apply in_replace_char in Hin as [[_ H]|H]; auto. Qed.

Lemma not_in_replace_other x c r l : ~ In x l -> ~ In x r -> ~ In x (replace_char c r l).
Proof. intros Hl Hr Hin. apply in_replace_char in Hin as [[H _]|H]; auto. Qed.

Lemma html_escape_safe s :
  ~ In dq_char (chars (html_escape s)) /\ ~ In "'"%char (chars (html_escape s)) /\
  ~ In "<"%char (chars (html_escape s)) /\ ~ In ">"%char (chars (html_escape s)).
Proof.
  unfold html_escape, chars. rewrite list_ascii_of_string_of_list_ascii.
  fold (chars s).
  repeat split.
  - apply not_in_replace_other; [|not_in_lit]. apply not_in_replace_same. not_in_lit.
  - apply not_in_replace_same. not_in_lit.
  - apply not_in_replace_other; [|not_in_lit]. apply not_in_replace_other; [|not_in_lit].
    apply not_in_replace_other; [|not_in_lit]. apply not_in_replace_same. not_in_lit.
  - apply not_in_replace_other; [|not_in_lit]. apply not_in_replace_other; [|not_in_lit].
    apply not_in_replace_same. not_in_lit.
Qed.

(** Without an artifacts site [_do_pdf_preview] raises (escape of
    None); with a URL, the markup opens with the [src] attribute holding
    the HTML-escaped URL, which has no double quote, single quote, "<"
    or ">" to end the attribute or the tag early. *)
Theorem pdf_preview_src_escaped u h :
  do_pdf_preview None h = Err AttributeError /\
  exists rest, do_pdf_preview (Some u) h = Ok ("<iframe src=" ++ dq ++ html_escape u ++ dq ++ rest) /\
    ~ In dq_char (chars (html_escape u)) /\ ~ In "'"%char (chars (html_escape u)) /\
    ~ In "<"%char (chars (html_escape u)) /\ ~ In ">"%char (chars (html_escape u)).
Proof.
  split; [reflexivity|]. eexists. split; [reflexivity|]. apply html_escape_safe.
Qed.

(** The f-string never closes the quote it opens for [height]: for a
    height without double quotes the markup holds nine double quotes,
    so the [height] value runs on into [type=]. *)
Theorem pdf_markup_odd_quotes u h m :
  ~ In dq_char (chars h) -> do_pdf_preview (Some u) h = Ok m ->
  count_occ ascii_dec (chars m) dq_char = 9.
Proof.
  intros Hh H. injection H as <-. rewrite !chars_app, !count_occ_app.
  rewrite (proj1 (count_occ_not_In ascii_dec _ _) Hh),
          (proj1 (count_occ_not_In ascii_dec _ _) (proj1 (html_escape_safe u))).
  reflexivity.
Qed.

Lemma pdf_markup_odd_quotes_witness :
  count_occ ascii_dec
    (chars (match do_pdf_preview (Some "https://h/a.pdf") "420px" with Ok m => m | Err _ => "" end))
    dq_char = 9.
Proof.
  apply (pdf_markup_odd_quotes "https://h/a.pdf" "420px"); [not_in_lit | reflexivity].
Defined.

(** ** os.path.splitext *)

Lemma rfind_from_cases c l i acc :
  (rfind_from c l i acc = acc /\ forall k, nth_error l k <> Some c) \/
  exists j, nth_error l j = Some c /\ rfind_from c l i acc = Z.of_nat (i + j) /\
            forall k, j < k -> nth_error l k <> Some c.
Proof.
  revert i acc. induction l as [|x l IH]; intros i acc; cbn [rfind_from].
  - left. split; [reflexivity|]. intros [|k]; discriminate.
  - destruct (ascii_dec x c) as [->|Hne].
    + right. destruct (IH (S i) (Z.of_nat i)) as [[Hr Hk]|(j & Hj & Hr & Hk)].
      * exists 0. split; [reflexivity|]. split; [rewrite Hr; f_equal; lia|].
        intros [|k] Hlt; [lia|]. apply Hk.
      * exists (S j). split; [exact Hj|]. split; [rewrite Hr; f_equal; lia|].
        intros [|k] Hlt; [lia|]. apply Hk. lia.
    + destruct (IH (S i) acc) as [[Hr Hk]|(j & Hj & Hr & Hk)].
      * left. split; [exact Hr|]. intros [|k]; [cbn; congruence | apply Hk].
      * right. exists (S j). split; [exact Hj|]. split; [rewrite Hr; f_equal; lia|].
        intros [|k] Hlt; [lia|]. apply Hk. lia.
Qed.

Lemma nth_error_In_iff {A} (l : list A) x : In x l <-> exists k, nth_error l k = Some x.
Proof.
  split; [apply In_nth_error|]. intros (k & Hk). by apply nth_error_In in Hk.
Qed.

Lemma skipn_nth_error_cons {A} (l : list A) j x :
  nth_error l j = Some x -> skipn j l = x :: skipn (S j) l.
Proof.
  revert l. induction j as [|j IH]; intros [|y l] Hj; try discriminate.
  - injection Hj as ->. reflexivity.
  - apply IH, Hj.
Qed.

Lemma nth_error_skipn_add {A} (l : list A) j k : nth_error (skipn j l) k = nth_error l (j + k).
Proof.
  revert l. induction j as [|j IH]; intros [|y l]; try reflexivity.
  - by destruct k.
  - apply IH.
Qed.

(** The extension [show_file_preview] looks up is empty or the final
    "."-suffix of the path: a dot followed by characters none of which
    is a dot or a "/". *)
Theorem splitext_ext_shape p :
  splitext_ext p = "" \/
  exists pre rest, chars p = (pre ++ "."%char :: rest)%list /\
                   chars (splitext_ext p) = "."%char :: rest /\
                   ~ In "."%char rest /\ ~ In "/"%char rest.
Proof.
  unfold splitext_ext. cbv zeta.
  set (l := chars p). unfold rfind.
  destruct (rfind_from_cases "."%char l 0 (-1)%Z) as [[Hd Hnd]|(j & Hj & Hd & Hnd)];
    rewrite Hd.
  - destruct (rfind_from_cases "/"%char l 0 (-1)%Z) as [[Hs _]|(j' & _ & Hs & _)];
      rewrite Hs; left; replace (_ <? -1)%Z with false by (symmetry; apply Z.ltb_ge; lia);
      reflexivity.
  - destruct (_ && _) eqn:Hc; [|by left]. right.
    apply andb_true_iff in Hc as [Hlt _]. apply Z.ltb_lt in Hlt.
    rewrite Nat2Z.id. cbn [Nat.add].
    exists (firstn j l), (skipn (S j) l).
    assert (Hsk := skipn_nth_error_cons l j _ Hj).
    split; [rewrite <- Hsk; symmetry; apply firstn_skipn|].
    split; [rewrite list_ascii_of_string_of_list_ascii; exact Hsk|].
    assert (Hafter : forall x k, nth_error (skipn (S j) l) k = Some x -> nth_error l (S j + k) = Some x)
      by (intros x k Hk; by rewrite <- nth_error_skipn_add).
    split.
    + rewrite nth_error_In_iff. intros (k & Hk). apply Hafter in Hk. apply (Hnd (S j + k)); [lia|exact Hk].
    + rewrite nth_error_In_iff. intros (k & Hk). apply Hafter in Hk.
      destruct (rfind_from_cases "/"%char l 0 (-1)%Z) as [[Hs Hns]|(j' & _ & Hs & Hns)].
      * exact (Hns _ Hk).
      * rewrite Hs in Hlt. apply (Hns (S j + k)); [lia|exact Hk].
Qed.

(** ** The path prefix of [_query] as a LIKE pattern *)






Lemma translate_then_filter_no_patterns E raw files :
  translate_then_filter E [] raw = Ok files -> files = [].
Proof.
  revert files. induction raw as [|r rs IH]; intros files; cbn [translate_then_filter].
  - by intros [= <-].
  - destruct (translate_storage_file E r) as [f|e]; cbn [res_bind]; [|discriminate].
    cbn [filter_func res_bind].
    destruct (translate_then_filter E [] rs) as [rest|e] eqn:Hr; cbn [res_bind]; [|discriminate].
    intros [= <-]. exact (IH rest eq_refl).
Qed.

(** An empty pattern tuple keeps nothing: [list(())] returns no record
    whenever it returns. *)
Theorem list_no_patterns_empty E table b limit offset order files :
  Bucket_list E table b [] limit offset order = Ok files -> files = [].
Proof.
  unfold Bucket_list. cbv zeta.
  destruct (execute E table _) as [raw|e]; cbn [res_bind]; [|discriminate].
  apply translate_then_filter_no_patterns.
Qed.

Lemma list_no_patterns_empty_witness :
  Bucket_list (demo_env PNone) demo_table demo_bucket [] None None None = Ok [] /\ @nil File = [].
Proof.
  assert (H : Bucket_list (demo_env PNone) demo_table demo_bucket [] None None None = Ok [])
    by (vm_compute; reflexivity).
  split; [exact H | exact (list_no_patterns_empty _ _ _ _ _ _ _ H)].
Defined.
